(** * email-checker: format validation and SMTP reachability probe

    A shallow embedding of [email_validate_script.py] (command-line variant)
    and of [streamlit_email.py] (batch variant), with the properties of the
    specification proved about it.

    Python [str] values are modelled as [string]; the collaborators the code
    calls (the DNS resolver and the [smtplib] client) are a [world] of
    functions that answer or raise, and every call the code makes to them is
    recorded in a trace of [event]s. *)

From Stdlib Require Import String Ascii List Bool Arith ZArith Lia.
From Stdlib Require Import Numbers.DecimalString.
Import ListNotations.
Local Open Scope string_scope.
Local Open Scope list_scope.

(* ===================================================================== *)
(** ** Strings *)
(* ===================================================================== *)

(** The newline character, [\n]. *)
Definition newline : ascii := Ascii.ascii_of_nat 10.

(** The one-character string that holds a newline. *)
Definition nl : string := String newline EmptyString.

(** [c in s] for a one-character [c]. *)
Fixpoint contains (c : ascii) (s : string) : bool :=
  match s with
  | EmptyString => false
  | String x s' => Ascii.eqb x c || contains c s'
  end.

(** [s.count(c)] for a one-character [c]. *)
Fixpoint count (c : ascii) (s : string) : nat :=
  match s with
  | EmptyString => 0
  | String x s' => (if Ascii.eqb x c then 1 else 0) + count c s'
  end.

(** [s.split(sep)] for a one-character separator: the pieces between the
    occurrences of [sep], empty pieces included; never the empty list. *)
Fixpoint split (sep : ascii) (s : string) : list string :=
  match s with
  | EmptyString => [EmptyString]
  | String x s' =>
      if Ascii.eqb x sep then EmptyString :: split sep s'
      else match split sep s' with
           | p :: ps => String x p :: ps
           | [] => [String x EmptyString]
           end
  end.

(* ===================================================================== *)
(** ** The fragment of [re] the pattern is written in *)
(* ===================================================================== *)

(** A bracket expression is a list of single characters and ranges. *)
Inductive class_item : Type :=
| One (c : ascii)
| Range (lo hi : ascii).

Definition char_class := list class_item.

Definition in_item (c : ascii) (i : class_item) : bool :=
  match i with
  | One x => Ascii.eqb c x
  | Range lo hi =>
      Nat.leb (nat_of_ascii lo) (nat_of_ascii c)
      && Nat.leb (nat_of_ascii c) (nat_of_ascii hi)
  end.

Definition in_class (cls : char_class) (c : ascii) : bool :=
  existsb (in_item c) cls.

(** The pattern is a sequence of anchors, literals and greedy repetitions of
    a bracket expression with a lower bound ([+] is [{1,}]). *)
Inductive item : Type :=
| Bol                                  (* ^ *)
| Eol                                  (* $ *)
| Lit (c : ascii)                      (* a literal character *)
| Rep (cls : char_class) (min : nat).  (* [cls]{min,} *)

Definition regex := list item.

(** [$] without [re.MULTILINE]: at the end of the string, or just before a
    newline that is the last character of the string. *)
Definition at_end (s : string) : bool :=
  match s with
  | EmptyString => true
  | String c EmptyString => Ascii.eqb c newline
  | _ => false
  end.

(** Greedy repetition with backtracking: take one more character of the
    class when possible, otherwise (or when the rest fails) stop here if the
    lower bound is met and hand over to the continuation [k]. [pos] is the
    offset of [s] in the subject string. *)
Fixpoint rep (cls : char_class) (k : nat -> string -> bool)
         (min pos : nat) (s : string) {struct s} : bool :=
  match s with
  | String c s' =>
      (in_class cls c && rep cls k (pred min) (S pos) s')
      || (Nat.eqb min 0 && k pos s)
  | EmptyString => Nat.eqb min 0 && k pos EmptyString
  end.

Fixpoint run (p : regex) (pos : nat) (s : string) {struct p} : bool :=
  match p with
  | [] => true
  | Bol :: p' => Nat.eqb pos 0 && run p' pos s
  | Eol :: p' => at_end s && run p' pos s
  | Lit c :: p' =>
      match s with
      | String x s' => Ascii.eqb x c && run p' (S pos) s'
      | EmptyString => false
      end
  | Rep cls min :: p' => rep cls (run p') min pos s
  end.

(** [bool(re.match(p, s))]: a match anchored at offset 0 that need not
    reach the end of the string. *)
Definition re_match (p : regex) (s : string) : bool := run p 0 s.

(* ===================================================================== *)
(** ** The pattern of [is_email_format_valid] *)
(* ===================================================================== *)

(** [[a-zA-Z0-9._%+-]] *)
Definition local_chars : char_class :=
  [Range "a" "z"; Range "A" "Z"; Range "0" "9";
   One "."; One "_"; One "%"; One "+"; One "-"].

(** [[a-zA-Z0-9.-]] *)
Definition domain_chars : char_class :=
  [Range "a" "z"; Range "A" "Z"; Range "0" "9"; One "."; One "-"].

(** [[a-zA-Z]] *)
Definition tld_chars : char_class := [Range "a" "z"; Range "A" "Z"].

(** [r'^[a-zA-Z0-9._%+-]+@[a-zA-Z0-9.-]+\.[a-zA-Z]{2,}$'] *)
Definition pattern : regex :=
  [Bol; Rep local_chars 1; Lit "@"; Rep domain_chars 1; Lit ".";
   Rep tld_chars 2; Eol].


(* ===================================================================== *)
(** ** Exceptions, results and the trace of calls *)
(* ===================================================================== *)

(** The exception classes the code names, and [OtherException] for every
    other subclass of [Exception]. All of them are subclasses of
    [Exception]; asynchronous interrupts are outside the model. *)
Inductive exn_class : Type :=
| ValueError
| KeyError
| DNSException
| SMTPServerDisconnected
| SMTPConnectError
| socket_timeout
| TypeError
| OtherException.

(** An exception object: its class and [str(e)]. *)
Record exn : Type := mk_exn { exn_cls : exn_class; exn_str : string }.

(** The outcome of evaluating a Python expression. *)
Inductive py (A : Type) : Type :=
| Ret (a : A)
| Raise (e : exn).
Arguments Ret {A} a.
Arguments Raise {A} e.

(** Every call to a collaborator, in the order the code makes it. *)
Inductive event : Type :=
| EvResolve (domain : string)            (* dns.resolver.resolve(domain, 'MX') *)
| EvConnect (host : string) (timeout : Z) (* SMTP(timeout).connect(host) *)
| EvHelo (host name : string)            (* smtp.helo(name) *)
| EvMail (host sender : string)          (* smtp.mail(sender) *)
| EvRcpt (host rcpt : string)            (* smtp.rcpt(rcpt) *)
| EvQuit (host : string)                 (* smtp.quit() *)
| EvStatus (i total : nat) (email : string) (* status_text.text(...) *)
| EvProgress (num den : nat)             (* progress_bar.progress(num/den) *)
| EvSleep.                               (* time.sleep(0.1) *)

Definition is_network (e : event) : bool :=
  match e with
  | EvResolve _ | EvConnect _ _ | EvHelo _ _ | EvMail _ _ | EvRcpt _ _
  | EvQuit _ => true
  | EvStatus _ _ _ | EvProgress _ _ | EvSleep => false
  end.

(** [Some host] for the call that opens a connection to [host]. *)
Definition connect_host (e : event) : option string :=
  match e with
  | EvConnect h _ => Some h
  | _ => None
  end.

(** The hosts a trace opens a connection to, in order. *)
Fixpoint contacted (tr : list event) : list string :=
  match tr with
  | [] => []
  | e :: tr' =>
      match connect_host e with
      | Some h => h :: contacted tr'
      | None => contacted tr'
      end
  end.

(** A computation: its outcome and the calls it made on the way. An
    exception keeps the calls made before it. *)
Definition io (A : Type) : Type := py A * list event.

Definition ret {A} (a : A) : io A := (Ret a, []).
Definition raise {A} (e : exn) : io A := (Raise e, []).
Definition lift {A} (r : py A) : io A := (r, []).

Definition bind {A B} (m : io A) (f : A -> io B) : io B :=
  match m with
  | (Ret a, t1) => let (r, t2) := f a in (r, t1 ++ t2)
  | (Raise e, t1) => (Raise e, t1)
  end.

(** A call to a collaborator: recorded, then answered. *)
Definition call {A} (ev : event) (answer : py A) : io A := (answer, [ev]).

(** [try: body / except ...: handler]. *)
Definition try_except {A} (body : io A) (handler : exn -> io A) : io A :=
  match body with
  | (Ret a, t1) => (Ret a, t1)
  | (Raise e, t1) => let (r, t2) := handler e in (r, t1 ++ t2)
  end.

Declare Scope io_scope.
Delimit Scope io_scope with io.
Notation "x <- m ;; k" := (bind m (fun x => k))
  (at level 61, m at next level, right associativity) : io_scope.
Notation "' pat <- m ;; k" := (bind m (fun x => match x with pat => k end))
  (at level 61, pat pattern, m at next level, right associativity) : io_scope.
Notation "m ;; k" := (bind m (fun _ => k))
  (at level 61, right associativity) : io_scope.
Local Open Scope io_scope.

(** Leaving a [try] block by [return] or by falling through. *)
Inductive ctl (R A : Type) : Type :=
| Return (r : R)
| Next (a : A).
Arguments Return {R A} r.
Arguments Next {R A} a.

(** [a, b = l]. *)
Definition unpack2 {A} (l : list A) : py (A * A) :=
  match l with
  | [a; b] => Ret (a, b)
  | [] | [_] =>
      Raise (mk_exn ValueError "not enough values to unpack (expected 2)")
  | _ => Raise (mk_exn ValueError "too many values to unpack (expected 2)")
  end.

(** The collaborators: the DNS resolver and the SMTP client, each call
    answering or raising. [dns_resolve_mx d] is the list
    [[str(r.exchange) for r in dns.resolver.resolve(d, 'MX')]]. The answer
    to a call is a function of the host and of the arguments of the call: a
    world answers the same call in the same way each time. *)
Record world : Type := mk_world {
  dns_resolve_mx : string -> py (list string);
  getfqdn : string;
  smtp_connect : string -> Z -> py unit;
  smtp_helo : string -> string -> py unit;
  smtp_mail : string -> string -> py unit;
  smtp_rcpt : string -> string -> py (Z * string);
  smtp_quit : string -> py unit
}.

(* ===================================================================== *)
(** ** [email_validate_script.py] *)
(* ===================================================================== *)

Module Script.

(** [is_email_format_valid(email)] *)
Definition is_email_format_valid (email : string) : bool :=
  re_match pattern email.

Definition sender_email : string := "emeraldgreen@example.com".

Definition missing_at_msg : string :=
  "Invalid email format (missing @ symbol)".

Definition inconclusive_msg : string :=
  "Email validation failed or timed out. This doesn't necessarily mean the email is invalid - many servers block SMTP verification.".

Section Prober.

Variable w : world.

(** The body of the [try] block of the loop up to the test of the reply
    code: connect, greet, declare the sender, declare the recipient, quit. *)
Definition session (email : string) (timeout : Z) (mx_record : string) : io Z :=
  call (EvConnect mx_record timeout) (smtp_connect w mx_record timeout) ;;
  call (EvHelo mx_record (getfqdn w)) (smtp_helo w mx_record (getfqdn w)) ;;
  call (EvMail mx_record sender_email) (smtp_mail w mx_record sender_email) ;;
  ' (code, message) <-
    call (EvRcpt mx_record email) (smtp_rcpt w mx_record email) ;;
  call (EvQuit mx_record) (smtp_quit w mx_record) ;;
  ret code.

(** One iteration of [for mx_record in mx_records]: [Return] on code 250,
    [Next tt] for each [continue]. *)
Definition probe (email : string) (timeout : Z) (mx_record : string)
  : io (ctl (bool * string) unit) :=
  try_except
    (code <- session email timeout mx_record ;;
     if (code =? 250)%Z then ret (Return (true, "Email exists"))
     else ret (Next tt))
    (fun e =>
       match exn_cls e with
       | SMTPServerDisconnected => ret (Next tt)
       | SMTPConnectError => ret (Next tt)
       | socket_timeout => ret (Next tt)
       | _ => ret (Next tt)
       end).

(** The loop over the MX hosts and the statement after it. *)
Fixpoint probe_all (email : string) (timeout : Z) (mx_records : list string)
  : io (bool * string) :=
  match mx_records with
  | [] => ret (false, inconclusive_msg)
  | mx_record :: rest =>
      c <- probe email timeout mx_record ;;
      match c with
      | Return r => ret r
      | Next _ => probe_all email timeout rest
      end
  end.

(** [username, domain = email.split('@')] under [except ValueError]. *)
Definition parse (email : string) : io (ctl (bool * string) (string * string)) :=
  try_except
    (ud <- lift (unpack2 (split "@" email)) ;; ret (Next ud))
    (fun e =>
       match exn_cls e with
       | ValueError => ret (Return (false, missing_at_msg))
       | _ => raise e
       end).

(** The [try] block that resolves the MX records. *)
Definition resolve (domain : string) : io (ctl (bool * string) (list string)) :=
  try_except
    (mx_records <- call (EvResolve domain) (dns_resolve_mx w domain) ;;
     match mx_records with
     | [] => ret (Return (false, ("No MX records found for domain " ++ domain)%string))
     | _ => ret (Next mx_records)
     end)
    (fun e =>
       match exn_cls e with
       | DNSException => ret (Return (false, ("DNS error: " ++ exn_str e)%string))
       | _ => ret (Return (false, ("Error resolving MX records: " ++ exn_str e)%string))
       end).

(** [verify_email_smtp(email, timeout)] *)
Definition verify_email_smtp (email : string) (timeout : Z) : io (bool * string) :=
  p <- parse email ;;
  match p with
  | Return r => ret r
  | Next (username, domain) =>
      r <- resolve domain ;;
      match r with
      | Return r => ret r
      | Next mx_records => probe_all email timeout mx_records
      end
  end.

(** [check_email(email)] *)
Definition check_email (email : string) : io (bool * string) :=
  if negb (is_email_format_valid email) then ret (false, "Invalid email format")
  else verify_email_smtp email 15.

End Prober.

End Script.

(* ===================================================================== *)
(** ** [streamlit_email.py] *)
(* ===================================================================== *)

Module Streamlit.

(** The values a table cell holds: text, booleans, integers and the missing
    value. (Floating-point cells other than the missing value are left
    out.) *)
Inductive cell : Type :=
| CStr (s : string)
| CBool (b : bool)
| CInt (z : Z)
| CNaN.

(** [str(v)] *)
Definition py_str (v : cell) : string :=
  match v with
  | CStr s => s
  | CBool true => "True"
  | CBool false => "False"
  | CInt z => NilZero.string_of_int (Z.to_int z)
  | CNaN => "nan"
  end.

(** [pd.isna(v)] *)
Definition isna (v : cell) : bool :=
  match v with
  | CNaN => true
  | _ => false
  end.

(** [is_email_format_valid(email)], with its guard for missing values. *)
Definition is_email_format_valid (email : cell) : bool :=
  if isna email then false else re_match pattern (py_str email).

(** [verify_email_smtp] has the same text in both files. *)
Definition verify_email_smtp := Script.verify_email_smtp.

(** [check_email(email)] *)
Definition check_email (w : world) (email : string) : io (bool * string) :=
  if negb (is_email_format_valid (CStr email))
  then ret (false, "Invalid email format")
  else verify_email_smtp w email 15.

(** The dtype of a column: [bool], [int64], [float64], text ([str]) and
    [object]. *)
Inductive dtype : Type :=
| DBool
| DInt
| DFloat
| DText
| DObject.

Definition dtype_name (d : dtype) : string :=
  match d with
  | DBool => "bool"
  | DInt => "int64"
  | DFloat => "float64"
  | DText => "str"
  | DObject => "object"
  end.

(** A [DataFrame] with the default index [0 .. nrows-1]: its columns in
    order, each a name, a dtype and its values. *)
Record DataFrame : Type := mk_df {
  nrows : nat;
  columns : list (string * (dtype * list cell))
}.

Definition column_names (df : DataFrame) : list string :=
  map fst (columns df).

(** The labelled entry [p] has the label [c]. *)
Definition named {A} (c : string) (p : string * A) : bool :=
  String.eqb (fst p) c.

Definition has_column (df : DataFrame) (c : string) : bool :=
  existsb (named c) (columns df).

Definition column (df : DataFrame) (c : string) : option (list cell) :=
  option_map (fun p => snd (snd p)) (find (named c) (columns df)).

(** [df[c].dtype], when the column is there. *)
Definition column_dtype (df : DataFrame) (c : string) : option dtype :=
  option_map (fun p => fst (snd p)) (find (named c) (columns df)).

(** The cell at row [i] of column [c], when there is one. *)
Definition at_get (df : DataFrame) (i : nat) (c : string) : option cell :=
  match column df c with
  | Some vs => nth_error vs i
  | None => None
  end.

(** The values of column [c] changed by [f]; its dtype stays. *)
Definition map_column (c : string) (f : list cell -> list cell)
           (cols : list (string * (dtype * list cell)))
  : list (string * (dtype * list cell)) :=
  map (fun p => if named c p then (fst p, (fst (snd p), f (snd (snd p))))
                else p) cols.

Fixpoint set_nth {A} (i : nat) (v : A) (l : list A) : list A :=
  match l, i with
  | [], _ => []
  | _ :: l', O => v :: l'
  | x :: l', S i' => x :: set_nth i' v l'
  end.

(** The dtype of a column filled with the scalar [v]. *)
Definition scalar_dtype (v : cell) : dtype :=
  match v with
  | CStr _ => DText
  | CBool _ => DBool
  | CInt _ => DInt
  | CNaN => DFloat
  end.

(** [df[c] = v] for a scalar [v]: the column is replaced in place, values
    and dtype, or appended as the last column. *)
Definition setitem (df : DataFrame) (c : string) (v : cell) : DataFrame :=
  let col := (scalar_dtype v, repeat v (nrows df)) in
  if has_column df c
  then mk_df (nrows df)
             (map (fun p => if named c p then (fst p, col) else p) (columns df))
  else mk_df (nrows df) (columns df ++ [(c, col)]).

(** What the driver writes with [df.at]: a boolean or a text. *)
Inductive written : Type :=
| WBool (b : bool)
| WStr (s : string).

Definition cell_of (x : written) : cell :=
  match x with
  | WBool b => CBool b
  | WStr s => CStr s
  end.

(** A column of dtype [d] takes the value [x] as it is: booleans go into
    [bool] columns, text into text columns, anything into [object]
    columns. *)
Definition holds (d : dtype) (x : written) : bool :=
  match d, x with
  | DObject, _ => true
  | DBool, WBool _ => true
  | DText, WStr _ => true
  | _, _ => false
  end.

(** The dtype of the column that a write to a missing column brings into
    being, its other rows missing. *)
Definition created_dtype (x : written) : dtype :=
  match x with
  | WStr _ => DText
  | WBool _ => DObject
  end.

(** The [TypeError] of a write that the dtype of the column refuses. *)
Definition type_error (x : written) (d : dtype) : exn :=
  mk_exn TypeError
         ("Invalid value '" ++ py_str (cell_of x) ++ "' for dtype '"
            ++ dtype_name d ++ "'")%string.

(** The table after a write [df.at[i, c] = x] that goes through: the cell
    is overwritten, or the column is first appended, filled with the missing
    value. *)
Definition put (df : DataFrame) (i : nat) (c : string) (x : written)
  : DataFrame :=
  if has_column df c
  then mk_df (nrows df) (map_column c (set_nth i (cell_of x)) (columns df))
  else mk_df (nrows df)
             (columns df
                ++ [(c, (created_dtype x,
                         set_nth i (cell_of x) (repeat CNaN (nrows df))))]).

(** [df.at[i, c] = x] for an index label [i] of the frame, as pandas 3
    does it: a value that the dtype of an existing column does not take
    raises [TypeError] (a text written into an [int64], [float64] or [bool]
    column); a missing column is created. Earlier versions of pandas warned
    and turned the column into an [object] column instead. *)
Definition at_set (df : DataFrame) (i : nat) (c : string) (x : written)
  : py DataFrame :=
  match column_dtype df c with
  | Some d => if holds d x then Ret (put df i c x) else Raise (type_error x d)
  | None => Ret (put df i c x)
  end.

(** A row as [iterrows] yields it: a snapshot of the values of the row,
    labelled by the column names. *)
Definition row : Type := list (string * cell).

Definition row_at (df : DataFrame) (i : nat) : row :=
  map (fun p => (fst p, nth i (snd (snd p)) CNaN)) (columns df).

(** [df.iterrows()]: the rows are read when the loop starts. *)
Definition iterrows (df : DataFrame) : list (nat * row) :=
  map (fun i => (i, row_at df i)) (seq 0 (nrows df)).

(** [row[c]] *)
Definition row_get (r : row) (c : string) : py cell :=
  match find (named c) r with
  | Some p => Ret (snd p)
  | None => Raise (mk_exn KeyError ("'" ++ c ++ "'")%string)
  end.

Section Batch.

Variable w : world.
Variable email_col : string.

(** The body of [for i, row in df.iterrows()]. *)
Definition process_row (total_rows : nat) (df : DataFrame) (ir : nat * row)
  : io DataFrame :=
  let (i, r) := ir in
  v <- lift (row_get r email_col) ;;
  let email := py_str v in
  call (EvStatus (i + 1) total_rows email) (Ret tt) ;;
  let format_valid := is_email_format_valid (CStr email) in
  df <- lift (at_set df i "format_valid" (WBool format_valid)) ;;
  df <-
    (if format_valid then
       ' (is_reachable, message) <- verify_email_smtp w email 15 ;;
       ' (username, domain) <- lift (unpack2 (split "@" email)) ;;
       df <- lift (at_set df i "username" (WStr username)) ;;
       df <- lift (at_set df i "domain" (WStr domain)) ;;
       df <- lift (at_set df i "reachable" (WBool is_reachable)) ;;
       lift (at_set df i "validation_message" (WStr message))
     else
       lift (at_set df i "validation_message" (WStr "Invalid email format"))) ;;
  call (EvProgress (i + 1) total_rows) (Ret tt) ;;
  call EvSleep (Ret tt) ;;
  ret df.

Fixpoint for_rows (total_rows : nat) (df : DataFrame) (rows : list (nat * row))
  : io DataFrame :=
  match rows with
  | [] => ret df
  | ir :: rest =>
      df' <- process_row total_rows df ir ;;
      for_rows total_rows df' rest
  end.

(** The handler of the "Validate Emails" button, from the three column
    assignments to the end of the loop; the result is the table shown and
    offered for download. *)
Definition validate_emails (df : DataFrame) : io DataFrame :=
  let df := setitem df "format_valid" (CBool false) in
  let df := setitem df "reachable" (CBool false) in
  let df := setitem df "validation_message" (CStr "") in
  let total_rows := nrows df in
  for_rows total_rows df (iterrows df).

End Batch.

End Streamlit.

(* ===================================================================== *)
(** ** The shape the specification names *)
(* ===================================================================== *)

(** Every character of [s] is in the class. *)
Fixpoint all_in (cls : char_class) (s : string) : bool :=
  match s with
  | EmptyString => true
  | String c s' => in_class cls c && all_in cls s'
  end.

(** The specification's [localpart@domain.tld]: a non-empty local part of
    allowed characters, [@], a non-empty run of allowed domain characters,
    a dot, and a final label of two or more letters. *)
Definition well_formed (s : string) : Prop :=
  exists l d t : string,
    s = (l ++ "@" ++ d ++ "." ++ t)%string
    /\ all_in local_chars l = true /\ 1 <= String.length l
    /\ all_in domain_chars d = true /\ 1 <= String.length d
    /\ all_in tld_chars t = true /\ 2 <= String.length t.

(* ===================================================================== *)
(** ** What an MX host does with a probe *)
(* ===================================================================== *)

Section Hosts.

Variable w : world.
Variables (email : string) (timeout : Z).

(** The host answers the recipient declaration with [code]: the connection,
    the greeting and the sender declaration went through, and [smtp.rcpt]
    returned [code]. *)
Definition replies (h : string) (code : Z) : Prop :=
  smtp_connect w h timeout = Ret tt
  /\ smtp_helo w h (getfqdn w) = Ret tt
  /\ smtp_mail w h Script.sender_email = Ret tt
  /\ exists m, smtp_rcpt w h email = Ret (code, m).

(** The host accepts: it answers 250 and the session is then closed
    without an error, so that the code is reached where it tests the code. *)
Definition accepts (h : string) : Prop :=
  replies h 250 /\ smtp_quit w h = Ret tt.

(** The attempt at the host ends in an exception (a connection failure, a
    disconnection, a timeout, anything else) or in a reply code that is not
    250. *)
Definition attempt_fails (h : string) : Prop :=
  match fst (Script.session w email timeout h) with
  | Raise _ => True
  | Ret code => code <> 250%Z
  end.

(** The calls of the attempts at the hosts [hs], one after the other. *)
Definition attempts (hs : list string) : list event :=
  concat (map (fun h => snd (Script.probe w email timeout h)) hs).

End Hosts.

(* ===================================================================== *)
(** ** Worlds for concrete runs *)
(* ===================================================================== *)

Definition mx1 : string := "mx1.example.com".
Definition mx2 : string := "mx2.example.com".

(** Two MX hosts that both accept every recipient. *)
Definition accepting_world : world :=
  mk_world (fun _ => Ret [mx1; mx2]) "probe.example.org"
           (fun _ _ => Ret tt) (fun _ _ => Ret tt) (fun _ _ => Ret tt)
           (fun _ _ => Ret (250%Z, "OK")) (fun _ => Ret tt).

(** Two MX hosts that answer 250 and then drop the connection before the
    reply to QUIT. *)
Definition quit_drop_world : world :=
  mk_world (fun _ => Ret [mx1; mx2]) "probe.example.org"
           (fun _ _ => Ret tt) (fun _ _ => Ret tt) (fun _ _ => Ret tt)
           (fun _ _ => Ret (250%Z, "OK"))
           (fun _ => Raise (mk_exn SMTPServerDisconnected
                                   "Connection unexpectedly closed")).

(** The first MX host answers 550, the second 250. *)
Definition first_rejects_world : world :=
  mk_world (fun _ => Ret [mx1; mx2]) "probe.example.org"
           (fun _ _ => Ret tt) (fun _ _ => Ret tt) (fun _ _ => Ret tt)
           (fun h _ => if String.eqb h mx1 then Ret (550%Z, "No such user")
                       else Ret (250%Z, "OK"))
           (fun _ => Ret tt).

(** Two MX hosts, and every connection times out. *)
Definition timeout_world : world :=
  mk_world (fun _ => Ret [mx1; mx2]) "probe.example.org"
           (fun _ _ => Raise (mk_exn socket_timeout "timed out"))
           (fun _ _ => Ret tt) (fun _ _ => Ret tt)
           (fun _ _ => Ret (250%Z, "OK")) (fun _ => Ret tt).

(** The resolver answers with an empty record set. *)
Definition no_mx_world : world :=
  mk_world (fun _ => Ret []) "probe.example.org"
           (fun _ _ => Ret tt) (fun _ _ => Ret tt) (fun _ _ => Ret tt)
           (fun _ _ => Ret (250%Z, "OK")) (fun _ => Ret tt).

(** The resolver fails. *)
Definition dns_failure_world : world :=
  mk_world (fun _ => Raise (mk_exn DNSException "The DNS query name does not exist."))
           "probe.example.org"
           (fun _ _ => Ret tt) (fun _ _ => Ret tt) (fun _ _ => Ret tt)
           (fun _ _ => Ret (250%Z, "OK")) (fun _ => Ret tt).

(* ===================================================================== *)
(** ** Reading the tables of the batch driver *)
(* ===================================================================== *)

(** The address of record [i] of the uploaded table: [str] of the cell in
    the selected column. *)
Definition address (df : Streamlit.DataFrame) (email_col : string) (i : nat)
  : string :=
  match Streamlit.column df email_col with
  | Some vs => Streamlit.py_str (nth i vs Streamlit.CNaN)
  | None => ""
  end.

Definition format_invalid (email : string) : bool :=
  negb (Streamlit.is_email_format_valid (Streamlit.CStr email)).

(** M: the number of records of the table whose address is format-invalid. *)
Definition count_format_invalid (df : Streamlit.DataFrame) (email_col : string)
  : nat :=
  List.length
    (filter (fun i => format_invalid (address df email_col i))
            (seq 0 (Streamlit.nrows df))).

(** Record [i] of the output has [reachable = False] and
    [validation_message = "Invalid email format"]. *)
Definition marked_invalid (out : Streamlit.DataFrame) (i : nat) : bool :=
  match Streamlit.at_get out i "reachable",
        Streamlit.at_get out i "validation_message" with
  | Some (Streamlit.CBool false), Some (Streamlit.CStr m) =>
      String.eqb m "Invalid email format"
  | _, _ => false
  end.

Definition count_marked_invalid (out : Streamlit.DataFrame) : nat :=
  List.length (filter (marked_invalid out) (seq 0 (Streamlit.nrows out))).

(** What the driver records for an address: the result of the probe for a
    format-valid one, the fixed pair for the others. *)
Definition verdict (w : world) (email : string) : bool * string :=
  if Streamlit.is_email_format_valid (Streamlit.CStr email) then
    match fst (Streamlit.verify_email_smtp w email 15) with
    | Ret r => r
    | Raise _ => (false, "")
    end
  else (false, "Invalid email format").

(** The DNS and SMTP calls made for an address: those of the probe for a
    format-valid one, none for the others. *)
Definition record_calls (w : world) (email : string) : list event :=
  if Streamlit.is_email_format_valid (Streamlit.CStr email)
  then snd (Streamlit.verify_email_smtp w email 15)
  else [].

(** The table after the three column assignments that precede the loop. *)
Definition initialised (df : Streamlit.DataFrame) : Streamlit.DataFrame :=
  Streamlit.setitem
    (Streamlit.setitem
       (Streamlit.setitem df "format_valid" (Streamlit.CBool false))
       "reachable" (Streamlit.CBool false))
    "validation_message" (Streamlit.CStr "").

(** The names of the columns the driver assigns before the loop. *)
Definition preset_columns : list string :=
  ["format_valid"; "reachable"; "validation_message"].

(** Tables for concrete runs. *)
Definition df_sample : Streamlit.DataFrame :=
  Streamlit.mk_df 3
    [("name", (Streamlit.DText,
               [Streamlit.CStr "Ann"; Streamlit.CStr "Bob"; Streamlit.CStr "Cy"]));
     ("email", (Streamlit.DText,
                [Streamlit.CStr "ann@example.com"; Streamlit.CStr "not-an-email";
                 Streamlit.CNaN]))].

Definition df_invalid_only : Streamlit.DataFrame :=
  Streamlit.mk_df 1
    [("email", (Streamlit.DText, [Streamlit.CStr "not-an-email"]))].

Definition df_reachable_clash : Streamlit.DataFrame :=
  Streamlit.mk_df 1
    [("reachable", (Streamlit.DText, [Streamlit.CStr "user@example.com"]))].

(* ===================================================================== *)
(** ** The command-line entry point *)
(* ===================================================================== *)

(** The three lines of the note printed after a failed probe; the first
    [print] starts with a newline. *)
Definition advisory_note : list string :=
  [String newline
     "NOTE: Many email providers block SMTP verification for security reasons.";
   "A failed SMTP check does NOT guarantee the email is invalid.";
   "For critical applications, consider email verification via sending a confirmation link."].

(** The block under [if __name__ == "__main__"], for the text typed at the
    prompt: the value is the list of the arguments of the [print] calls, in
    order (text is held as UTF-8). *)
Definition script_main (w : world) (email_to_check : string) : io (list string) :=
  ' (is_valid, message) <- Script.check_email w email_to_check ;;
  let line1 :=
    ("Format check: "
       ++ (if Script.is_email_format_valid email_to_check
           then "✅ Valid" else "❌ Invalid"))%string in
  let line2 :=
    ("SMTP check: " ++ (if is_valid then "✅ " else "❓ ") ++ message)%string in
  ret ([line1; line2]
         ++ (if negb is_valid && Script.is_email_format_valid email_to_check
             then advisory_note else [])).

(* ===================================================================== *)
(** ** Sessions, summary counts and the per-record update *)
(* ===================================================================== *)

(** The five calls of a session with host [h] that runs to its end. *)
Definition full_session (w : world) (email : string) (timeout : Z) (h : string)
  : list event :=
  [EvConnect h timeout; EvHelo h (getfqdn w); EvMail h Script.sender_email;
   EvRcpt h email; EvQuit h].

(** The number of [True] cells. *)
Fixpoint count_true (vs : list Streamlit.cell) : nat :=
  match vs with
  | [] => 0
  | Streamlit.CBool true :: vs' => S (count_true vs')
  | _ :: vs' => count_true vs'
  end.

Definition is_bool_cell (v : Streamlit.cell) : bool :=
  match v with
  | Streamlit.CBool _ => true
  | _ => false
  end.

(** [df[c].sum()] for a column of booleans, as in the summary
    ([valid_format_count], [reachable_count]); [None] for a missing column
    and for a column that holds anything else. *)
Definition column_sum (df : Streamlit.DataFrame) (c : string) : option nat :=
  match Streamlit.column df c with
  | Some vs => if forallb is_bool_cell vs then Some (count_true vs) else None
  | None => None
  end.

(** The names of the columns the loop writes. *)
Definition result_columns : list string :=
  ["format_valid"; "reachable"; "validation_message"; "username"; "domain"].

(** The address of record [i] as the loop reads it: from the table after
    the three column assignments. *)
Definition seen (df : Streamlit.DataFrame) (email_col : string) (i : nat)
  : string :=
  address (initialised df) email_col i.

(** What one iteration does to the table when all its writes go through,
    for the address [email] of record [i]. *)
Definition record_update (w : world) (email : string) (i : nat)
           (cur : Streamlit.DataFrame) : Streamlit.DataFrame :=
  if Streamlit.is_email_format_valid (Streamlit.CStr email) then
    match fst (Streamlit.verify_email_smtp w email 15),
          unpack2 (split "@" email) with
    | Ret (is_reachable, message), Ret (username, domain) =>
        Streamlit.put
          (Streamlit.put
             (Streamlit.put
                (Streamlit.put
                   (Streamlit.put cur i "format_valid" (Streamlit.WBool true))
                   i "username" (Streamlit.WStr username))
                i "domain" (Streamlit.WStr domain))
             i "reachable" (Streamlit.WBool is_reachable))
          i "validation_message" (Streamlit.WStr message)
    | _, _ => cur
    end
  else
    Streamlit.put
      (Streamlit.put cur i "format_valid" (Streamlit.WBool false))
      i "validation_message" (Streamlit.WStr "Invalid email format").

(** The calls of one iteration: the status line, the calls of the probe for
    a format-valid address, the progress update and the pacing delay. *)
Definition record_events (w : world) (total i : nat) (email : string)
  : list event :=
  EvStatus (i + 1) total email
    :: record_calls w email ++ [EvProgress (i + 1) total; EvSleep].

(** Every column has as many values as the table has rows. *)
Definition rectangular (df : Streamlit.DataFrame) : bool :=
  forallb (fun p => Nat.eqb (List.length (snd (snd p))) (Streamlit.nrows df))
          (Streamlit.columns df).

(** The column [c] is missing or of a dtype that takes text. *)
Definition takes_text (df : Streamlit.DataFrame) (c : string) : bool :=
  match Streamlit.column_dtype df c with
  | Some d => Streamlit.holds d (Streamlit.WStr "")
  | None => true
  end.

(** The columns [username] and [domain], where the table has them, take
    text: they were read as text or hold values of mixed kinds. *)
Definition parts_writable (df : Streamlit.DataFrame) : bool :=
  takes_text df "username" && takes_text df "domain".

(** The three preset columns have the dtypes the assignments before the
    loop give them. *)
Definition presets_ready (df : Streamlit.DataFrame) : Prop :=
  Streamlit.column_dtype df "format_valid" = Some Streamlit.DBool
  /\ Streamlit.column_dtype df "reachable" = Some Streamlit.DBool
  /\ Streamlit.column_dtype df "validation_message" = Some Streamlit.DText.

(** A world whose resolver fails with an error that is not a DNS error. *)
Definition resolver_crash_world : world :=
  mk_world (fun _ => Raise (mk_exn OtherException "network is unreachable"))
           "probe.example.org"
           (fun _ _ => Ret tt) (fun _ _ => Ret tt) (fun _ _ => Ret tt)
           (fun _ _ => Ret (250%Z, "OK")) (fun _ => Ret tt).

(** A table that already has a [username] column of text. *)
Definition df_with_username : Streamlit.DataFrame :=
  Streamlit.mk_df 2
    [("username", (Streamlit.DText,
                   [Streamlit.CStr "old1"; Streamlit.CStr "old2"]));
     ("email", (Streamlit.DText,
                [Streamlit.CStr "bob@example.org"; Streamlit.CStr "nope"]))].

(** A table whose [username] column holds integers. *)
Definition df_int_username : Streamlit.DataFrame :=
  Streamlit.mk_df 3
    [("username", (Streamlit.DInt,
                   [Streamlit.CInt 1; Streamlit.CInt 2; Streamlit.CInt 3]));
     ("email", (Streamlit.DText,
                [Streamlit.CStr "nope"; Streamlit.CStr "bob@example.org";
                 Streamlit.CStr "eve@example.org"]))].

(** Unfolding the computations down to the answers of the world. *)
Ltac io_unfold :=
  unfold Script.probe, Script.session, Script.parse, Script.resolve,
    try_except, bind, call, ret, raise, lift in *.

(* ===================================================================== *)
(** * Properties *)
(* ===================================================================== *)

(** ** Concrete runs of the format check and of [split] *)

Example fmt_ok : Script.is_email_format_valid "user@example.com" = true.
Proof. reflexivity. Qed.
Example fmt_no_at : Script.is_email_format_valid "not-an-email" = false.
Proof. reflexivity. Qed.
Example fmt_no_label : Script.is_email_format_valid "user@.com" = false.
Proof. reflexivity. Qed.
Example fmt_short_tld : Script.is_email_format_valid "user@example.c" = false.
Proof. reflexivity. Qed.
Example fmt_two_at : Script.is_email_format_valid "a@b@example.com" = false.
Proof. reflexivity. Qed.
Example fmt_space : Script.is_email_format_valid "us er@example.com" = false.
Proof. reflexivity. Qed.
Example split_two : split "@" "user@example.com" = ["user"; "example.com"].
Proof. reflexivity. Qed.
Example split_none : split "@" "abc" = ["abc"].
Proof. reflexivity. Qed.
Example split_edges : split "@" "@a@" = [""; "a"; ""].
Proof. reflexivity. Qed.
Example fmt_newline :
  Script.is_email_format_valid ("user@example.com" ++ nl) = true.
Proof. reflexivity. Qed.
Example fmt_two_newlines :
  Script.is_email_format_valid ("user@example.com" ++ nl ++ nl) = false.
Proof. reflexivity. Qed.
Example fmt_missing_cell :
  Streamlit.is_email_format_valid Streamlit.CNaN = false.
Proof. reflexivity. Qed.
Example fmt_double_dot : Script.is_email_format_valid "a@b..com" = true.
Proof. reflexivity. Qed.

(** ** Strings *)

Lemma append_nil_r (s : string) : (s ++ "")%string = s.
Proof. induction s as [|c s IH]; simpl; [reflexivity | now rewrite IH]. Qed.

Lemma append_assoc (a b c : string) :
  ((a ++ b) ++ c)%string = (a ++ (b ++ c))%string.
Proof. induction a as [|x a IH]; simpl; [reflexivity | now rewrite IH]. Qed.

Lemma append_eq_nil (a b : string) :
  (a ++ b)%string = "" -> a = "" /\ b = "".
Proof. destruct a; simpl; [auto | discriminate]. Qed.

Lemma count_append (c : ascii) (a b : string) :
  count c (a ++ b) = count c a + count c b.
Proof.
  induction a as [|x a IH]; simpl; [reflexivity|].
  rewrite IH. apply Nat.add_assoc.
Qed.

Lemma contains_count (c : ascii) (s : string) :
  contains c s = false <-> count c s = 0.
Proof.
  induction s as [|x s IH]; simpl; [tauto|].
  destruct (Ascii.eqb x c); simpl; [split; discriminate | exact IH].
Qed.

Lemma split_not_nil (sep : ascii) (s : string) : split sep s <> [].
Proof.
  induction s as [|x s IH]; simpl; [discriminate|].
  destruct (Ascii.eqb x sep); [discriminate|].
  destruct (split sep s); [contradiction | discriminate].
Qed.

(** [split] yields one piece more than there are separators. *)
Lemma split_length (sep : ascii) (s : string) :
  List.length (split sep s) = S (count sep s).
Proof.
  induction s as [|x s IH]; simpl; [reflexivity|].
  destruct (Ascii.eqb x sep); simpl; [now rewrite IH|].
  pose proof (split_not_nil sep s) as Hne.
  destruct (split sep s) as [|p ps]; [contradiction | exact IH].
Qed.

Lemma split_no_sep (sep : ascii) (s : string) :
  count sep s = 0 -> split sep s = [s].
Proof.
  induction s as [|x s IH]; simpl; [reflexivity|].
  destruct (Ascii.eqb x sep); simpl; [discriminate|].
  intros H. now rewrite (IH H).
Qed.

Lemma split_at_sep (sep : ascii) (a b : string) :
  count sep a = 0 ->
  split sep (a ++ String sep b) = a :: split sep b.
Proof.
  induction a as [|x a IH]; simpl.
  - intros _. now rewrite Ascii.eqb_refl.
  - destruct (Ascii.eqb x sep); simpl; [discriminate|].
    intros H. now rewrite (IH H).
Qed.

(** ** The matcher *)

Lemma all_in_append (cls : char_class) (a b : string) :
  all_in cls (a ++ b) = all_in cls a && all_in cls b.
Proof.
  induction a as [|x a IH]; simpl; [reflexivity|].
  now rewrite IH, andb_assoc.
Qed.

(** A string of characters of a class has none of a character outside it. *)
Lemma all_in_count (cls : char_class) (c : ascii) (s : string) :
  in_class cls c = false -> all_in cls s = true -> count c s = 0.
Proof.
  intros Hc. induction s as [|x s IH]; simpl; [reflexivity|].
  intros H. apply andb_prop in H. destruct H as [Hx Hs].
  destruct (Ascii.eqb_spec x c) as [->|_].
  - rewrite Hc in Hx. discriminate.
  - now apply IH.
Qed.

(** What a repetition matches: a prefix of characters of the class, at
    least [min] long, with the continuation holding on the rest. *)
Lemma rep_spec (cls : char_class) (k : nat -> string -> bool) (s : string) :
  forall min pos,
    rep cls k min pos s = true <->
    exists a b : string,
      s = (a ++ b)%string /\ all_in cls a = true /\ min <= String.length a
      /\ k (pos + String.length a) b = true.
Proof.
  induction s as [|c s IH]; intros min pos; simpl.
  - split.
    + intros H. apply andb_prop in H. destruct H as [Hm Hk].
      apply Nat.eqb_eq in Hm. exists "", "". simpl.
      rewrite Nat.add_0_r. repeat split; [lia | exact Hk].
    + intros (a & b & Hs & _ & Hm & Hk).
      symmetry in Hs. apply append_eq_nil in Hs. destruct Hs as [-> ->].
      simpl in *. rewrite Nat.add_0_r in Hk.
      apply andb_true_intro. split; [apply Nat.eqb_eq; lia | exact Hk].
  - split.
    + intros H. apply orb_prop in H. destruct H as [H|H].
      * apply andb_prop in H. destruct H as [Hc Hr].
        apply IH in Hr. destruct Hr as (a & b & -> & Ha & Hm & Hk).
        exists (String c a), b. simpl. rewrite Hc, Ha.
        rewrite Nat.add_succ_r. repeat split; [lia | exact Hk].
      * apply andb_prop in H. destruct H as [Hm Hk].
        apply Nat.eqb_eq in Hm. exists "", (String c s). simpl.
        rewrite Nat.add_0_r. repeat split; [lia | exact Hk].
    + intros (a & b & Hs & Ha & Hm & Hk). destruct a as [|x a]; simpl in *.
      * subst b. rewrite Nat.add_0_r in Hk.
        apply orb_true_intro. right.
        apply andb_true_intro. split; [apply Nat.eqb_eq; lia | exact Hk].
      * injection Hs as -> ->. apply andb_prop in Ha. destruct Ha as [Hc Ha].
        apply orb_true_intro. left. rewrite Hc. simpl.
        apply IH. exists a, b. rewrite Nat.add_succ_r in Hk.
        repeat split; [exact Ha | lia | exact Hk].
Qed.

Lemma at_end_spec (e : string) :
  at_end e = true <-> e = "" \/ e = String newline "".
Proof.
  destruct e as [|c [|c' e]]; simpl.
  - split; auto.
  - split.
    + intros H. apply Ascii.eqb_eq in H. subst. now right.
    + intros [H|H]; [discriminate|]. injection H as ->. apply Ascii.eqb_refl.
  - split; [discriminate|]. intros [H|H]; discriminate.
Qed.

(** What the pattern matches: [local @ domain . tld] followed by nothing or
    by one final newline. *)
Lemma pattern_spec (s : string) :
  re_match pattern s = true <->
  exists l d t e : string,
    s = (l ++ "@" ++ d ++ "." ++ t ++ e)%string
    /\ all_in local_chars l = true /\ 1 <= String.length l
    /\ all_in domain_chars d = true /\ 1 <= String.length d
    /\ all_in tld_chars t = true /\ 2 <= String.length t
    /\ (e = "" \/ e = String newline "").
Proof.
  unfold re_match, pattern. simpl run. split.
  - intros H. apply rep_spec in H.
    destruct H as (l & b1 & -> & Hl & Hl1 & H).
    destruct b1 as [|x b2]; [discriminate|].
    apply andb_prop in H. destruct H as [Hx H]. apply Ascii.eqb_eq in Hx. subst x.
    apply rep_spec in H. destruct H as (d & b3 & -> & Hd & Hd1 & H).
    destruct b3 as [|y b4]; [discriminate|].
    apply andb_prop in H. destruct H as [Hy H]. apply Ascii.eqb_eq in Hy. subst y.
    apply rep_spec in H. destruct H as (t & e & -> & Ht & Ht2 & H).
    rewrite andb_true_r in H. apply at_end_spec in H.
    exists l, d, t, e. repeat split; assumption.
  - intros (l & d & t & e & -> & Hl & Hl1 & Hd & Hd1 & Ht & Ht2 & He).
    apply rep_spec. exists l, ("@" ++ d ++ "." ++ t ++ e)%string.
    repeat split; try assumption. simpl.
    apply rep_spec. exists d, ("." ++ t ++ e)%string.
    repeat split; try assumption. simpl.
    apply rep_spec. exists t, e.
    repeat split; try assumption.
    rewrite andb_true_r. now apply at_end_spec.
Qed.

Lemma local_chars_no_at : in_class local_chars "@" = false.
Proof. reflexivity. Qed.

Lemma domain_chars_no_at : in_class domain_chars "@" = false.
Proof. reflexivity. Qed.

Lemma tld_chars_no_at : in_class tld_chars "@" = false.
Proof. reflexivity. Qed.

Lemma tld_chars_no_newline : in_class tld_chars newline = false.
Proof. reflexivity. Qed.

Lemma length_pos_not_empty (s : string) : 1 <= String.length s -> s <> "".
Proof. destruct s; simpl; [lia | discriminate]. Qed.

(** An accepted string has one [@], with something on both sides of it. *)
Lemma accepted_split (s : string) :
  re_match pattern s = true ->
  count "@" s = 1
  /\ exists u d : string, split "@" s = [u; d] /\ u <> "" /\ d <> "".
Proof.
  intros H. apply pattern_spec in H.
  destruct H as (l & d & t & e & -> & Hl & Hl1 & Hd & Hd1 & Ht & _ & He).
  assert (Hcl : count "@" l = 0)
    by (apply (all_in_count local_chars); [reflexivity | exact Hl]).
  assert (Hcr : count "@" (d ++ "." ++ t ++ e) = 0).
  { rewrite count_append.
    rewrite (all_in_count domain_chars "@" d domain_chars_no_at Hd).
    simpl. rewrite count_append.
    rewrite (all_in_count tld_chars "@" t tld_chars_no_at Ht).
    destruct He as [-> | ->]; reflexivity. }
  assert (Hr : (d ++ "." ++ t ++ e)%string <> "")
    by (destruct d; simpl in *; [lia | discriminate]).
  remember (d ++ "." ++ t ++ e)%string as r eqn:Er. clear Er.
  change ("@" ++ r)%string with (String "@" r).
  split.
  - rewrite count_append, Hcl. simpl. now rewrite Hcr.
  - exists l, r. split; [|split].
    + rewrite (split_at_sep "@" l _ Hcl). now rewrite (split_no_sep "@" _ Hcr).
    + now apply length_pos_not_empty.
    + exact Hr.
Qed.

(** The format check accepts the well-formed addresses and the well-formed
    addresses followed by one newline, and nothing else. *)
Lemma is_email_format_valid_iff (s : string) :
  Script.is_email_format_valid s = true <->
  well_formed s \/ exists s0, s = (s0 ++ nl)%string /\ well_formed s0.
Proof.
  unfold Script.is_email_format_valid. rewrite pattern_spec. split.
  - intros (l & d & t & e & -> & Hl & Hl1 & Hd & Hd1 & Ht & Ht2 & [-> | ->]).
    + left. exists l, d, t. rewrite append_nil_r. now repeat split.
    + right. exists (l ++ "@" ++ d ++ "." ++ t)%string. split.
      * rewrite ?append_assoc. simpl. now rewrite ?append_assoc.
      * exists l, d, t. now repeat split.
  - intros [(l & d & t & -> & H)|(s0 & -> & l & d & t & -> & H)].
    + exists l, d, t, "". rewrite append_nil_r.
      split; [reflexivity|]. intuition.
    + exists l, d, t, nl. split.
      * rewrite ?append_assoc. simpl. now rewrite ?append_assoc.
      * intuition.
Qed.

(** The two variants of the format check agree on text. *)
Lemma is_email_format_valid_variants (s : string) :
  Streamlit.is_email_format_valid (Streamlit.CStr s)
  = Script.is_email_format_valid s.
Proof. reflexivity. Qed.

(** The two copies of [check_email] agree. *)
Lemma check_email_variants (w : world) (s : string) :
  Streamlit.check_email w s = Script.check_email w s.
Proof. reflexivity. Qed.

(** ** C6 *)

(** C6. A string that does not contain [@] is rejected by
    [is_email_format_valid], in the script and in the batch variant (there
    for every cell whose text has no [@]). *)
Theorem is_email_format_valid_without_at :
  forall s : string,
    contains "@" s = false ->
    Script.is_email_format_valid s = false
    /\ Streamlit.is_email_format_valid (Streamlit.CStr s) = false
    /\ forall v : Streamlit.cell,
         Streamlit.py_str v = s -> Streamlit.is_email_format_valid v = false.
Proof.
  intros s Hs.
  assert (Hm : re_match pattern s = false).
  { destruct (re_match pattern s) eqn:E; [|reflexivity].
    apply accepted_split in E. destruct E as [E _].
    apply contains_count in Hs. rewrite Hs in E. discriminate. }
  split; [exact Hm|]. split.
  - unfold Streamlit.is_email_format_valid. simpl. exact Hm.
  - intros v <-. unfold Streamlit.is_email_format_valid.
    destruct (Streamlit.isna v); [reflexivity | exact Hm].
Qed.

Lemma is_email_format_valid_without_at_witness :
  contains "@" "not-an-email" = false
  /\ Script.is_email_format_valid "not-an-email" = false.
Proof.
  split; [reflexivity|].
  apply (is_email_format_valid_without_at "not-an-email"). reflexivity.
Defined.

(** ** The prober *)

Lemma contacted_app (a b : list event) :
  contacted (a ++ b) = contacted a ++ contacted b.
Proof.
  induction a as [|e a IH]; simpl; [reflexivity|].
  destruct (connect_host e); simpl; now rewrite IH.
Qed.

Section ProberFacts.

Variable w : world.
Variables (email : string) (timeout : Z).

(** [accepts] says that the session runs to its end with code 250. *)
Lemma accepts_session (h : string) :
  accepts w email timeout h <->
  fst (Script.session w email timeout h) = Ret 250%Z.
Proof.
  unfold accepts, replies. io_unfold.
  destruct (smtp_connect w h timeout) as [[]|e1]; simpl;
    [|split; [intros [[H _] _]|]; discriminate].
  destruct (smtp_helo w h (getfqdn w)) as [[]|e2]; simpl;
    [|split; [intros [(_ & H & _) _]|]; discriminate].
  destruct (smtp_mail w h Script.sender_email) as [[]|e3]; simpl;
    [|split; [intros [(_ & _ & H & _) _]|]; discriminate].
  destruct (smtp_rcpt w h email) as [[code m]|e4]; simpl;
    [|split; [intros [(_ & _ & _ & m & H) _]|]; discriminate].
  destruct (smtp_quit w h) as [[]|e5]; simpl;
    [|split; [intros [_ H]|]; discriminate].
  split.
  - intros [(_ & _ & _ & m' & H) _]. injection H as -> _. reflexivity.
  - intros H. injection H as ->. repeat split; try reflexivity. now exists m.
Qed.

Lemma attempt_fails_not_accepts (h : string) :
  attempt_fails w email timeout h <-> ~ accepts w email timeout h.
Proof.
  rewrite accepts_session. unfold attempt_fails.
  destruct (fst (Script.session w email timeout h)) as [code|e].
  - split; intros H; [intros E; injection E as ->; now apply H|].
    intros ->. now apply H.
  - split; [discriminate | trivial].
Qed.

Lemma accepts_or_fails (h : string) :
  accepts w email timeout h \/ attempt_fails w email timeout h.
Proof.
  rewrite accepts_session. unfold attempt_fails.
  destruct (fst (Script.session w email timeout h)) as [code|e]; [|now right].
  destruct (Z.eq_dec code 250) as [->|Hne]; [now left | now right].
Qed.

(** A connection that fails or times out is a failed attempt. *)
Lemma connect_error_fails (h : string) (e : exn) :
  smtp_connect w h timeout = Raise e -> attempt_fails w email timeout h.
Proof. intros H. unfold attempt_fails. io_unfold. now rewrite H. Qed.

(** A reply code other than 250 is a failed attempt, whether the session
    is then closed in order or not. *)
Lemma rejected_fails (h : string) (code : Z) :
  replies w email timeout h code -> code <> 250%Z ->
  attempt_fails w email timeout h.
Proof.
  intros (H1 & H2 & H3 & m & H4) Hc. unfold attempt_fails. io_unfold.
  rewrite H1, H2, H3, H4. simpl.
  destruct (smtp_quit w h) as [[]|e]; simpl; [exact Hc | exact I].
Qed.

(** A session dropped on QUIT is a failed attempt, whatever the reply code
    was. *)
Lemma quit_error_fails (h : string) (code : Z) (e : exn) :
  replies w email timeout h code -> smtp_quit w h = Raise e ->
  attempt_fails w email timeout h.
Proof.
  intros (H1 & H2 & H3 & m & H4) Hq. unfold attempt_fails. io_unfold.
  rewrite H1, H2, H3, H4, Hq. exact I.
Qed.

(** An iteration that meets an accepting host returns success. *)
Lemma probe_accepts (h : string) :
  accepts w email timeout h ->
  fst (Script.probe w email timeout h) = Ret (Return (true, "Email exists")).
Proof.
  intros H. apply accepts_session in H. unfold Script.probe, try_except, bind.
  destruct (Script.session w email timeout h) as [[code|e] t]; simpl in *;
    [|discriminate].
  injection H as ->. reflexivity.
Qed.

(** An iteration whose attempt fails goes on to the next host, whatever the
    exception or the code was. *)
Lemma probe_fails (h : string) :
  attempt_fails w email timeout h ->
  fst (Script.probe w email timeout h) = Ret (Next tt).
Proof.
  unfold attempt_fails, Script.probe, try_except, bind.
  destruct (Script.session w email timeout h) as [[code|e] t]; simpl.
  - intros H. apply Z.eqb_neq in H. now rewrite H.
  - intros _. destruct (exn_cls e); reflexivity.
Qed.

(** An iteration opens exactly one connection, to its own host. *)
Lemma probe_contacted (h : string) :
  contacted (snd (Script.probe w email timeout h)) = [h].
Proof.
  io_unfold.
  destruct (smtp_connect w h timeout) as [[]|e1]; simpl;
    [|destruct (exn_cls e1); reflexivity].
  destruct (smtp_helo w h (getfqdn w)) as [[]|e2]; simpl;
    [|destruct (exn_cls e2); reflexivity].
  destruct (smtp_mail w h Script.sender_email) as [[]|e3]; simpl;
    [|destruct (exn_cls e3); reflexivity].
  destruct (smtp_rcpt w h email) as [[code m]|e4]; simpl;
    [|destruct (exn_cls e4); reflexivity].
  destruct (smtp_quit w h) as [[]|e5]; simpl;
    [|destruct (exn_cls e5); reflexivity].
  destruct (code =? 250)%Z; reflexivity.
Qed.

Lemma attempts_contacted (hs : list string) :
  contacted (attempts w email timeout hs) = hs.
Proof.
  unfold attempts. induction hs as [|h hs IH]; simpl; [reflexivity|].
  now rewrite contacted_app, probe_contacted, IH.
Qed.

(** The loop over hosts that all fail: every host is tried, in order, and
    the statement after the loop is reached. *)
Lemma probe_all_exhausted (hs : list string) :
  Forall (attempt_fails w email timeout) hs ->
  Script.probe_all w email timeout hs
  = (Ret (false, Script.inconclusive_msg), attempts w email timeout hs).
Proof.
  unfold attempts. induction 1 as [|h hs Hh _ IH]; simpl; [reflexivity|].
  apply probe_fails in Hh. unfold bind at 1.
  destruct (Script.probe w email timeout h) as [r t]; simpl in *. subst r.
  now rewrite IH.
Qed.

(** The loop stops at the first accepting host. *)
Lemma probe_all_first_accepting (pre post : list string) (h : string) :
  Forall (attempt_fails w email timeout) pre ->
  accepts w email timeout h ->
  Script.probe_all w email timeout (pre ++ h :: post)
  = (Ret (true, "Email exists"), attempts w email timeout (pre ++ [h])).
Proof.
  intros Hpre Hh. unfold attempts.
  induction Hpre as [|x pre Hx _ IH]; simpl.
  - apply probe_accepts in Hh. unfold bind.
    destruct (Script.probe w email timeout h) as [r t]; simpl in *. subst r.
    simpl. reflexivity.
  - apply probe_fails in Hx. unfold bind at 1.
    destruct (Script.probe w email timeout x) as [r t]; simpl in *. subst r.
    now rewrite IH.
Qed.

(** The hosts split into those before the first accepting one, or all
    fail. *)
Lemma first_accepting_or_none (hs : list string) :
  (exists pre h post,
      hs = pre ++ h :: post
      /\ Forall (attempt_fails w email timeout) pre
      /\ accepts w email timeout h)
  \/ Forall (attempt_fails w email timeout) hs.
Proof.
  induction hs as [|x hs IH]; [now right|].
  destruct (accepts_or_fails x) as [Hx|Hx].
  - left. exists [], x, hs. split; [reflexivity | split; [constructor | exact Hx]].
  - destruct IH as [(pre & h & post & -> & Hpre & Hh)|Hall].
    + left. exists (x :: pre), h, post.
      split; [reflexivity | split; [now constructor | exact Hh]].
    + right. now constructor.
Qed.

End ProberFacts.

(** ** [verify_email_smtp] *)

Section VerifyFacts.

Variable w : world.
Variables (email : string) (timeout : Z).

Lemma parse_two (u d : string) :
  split "@" email = [u; d] -> Script.parse email = (Ret (Next (u, d)), []).
Proof. intros H. io_unfold. now rewrite H. Qed.

Lemma parse_other :
  List.length (split "@" email) <> 2 ->
  Script.parse email = (Ret (Return (false, Script.missing_at_msg)), []).
Proof.
  intros H. io_unfold.
  destruct (split "@" email) as [|a [|b [|c l]]]; simpl in *;
    try reflexivity.
  now contradiction H.
Qed.

Lemma split_two_parts :
  List.length (split "@" email) = 2 ->
  exists u d, split "@" email = [u; d].
Proof.
  destruct (split "@" email) as [|a [|b [|c l]]]; simpl; try discriminate.
  intros _. now exists a, b.
Qed.

(** Without exactly one [@] nothing is asked of the network. *)
Lemma verify_unparsed :
  List.length (split "@" email) <> 2 ->
  Script.verify_email_smtp w email timeout
  = (Ret (false, Script.missing_at_msg), []).
Proof.
  intros H. unfold Script.verify_email_smtp.
  rewrite (parse_other H). reflexivity.
Qed.

(** With MX hosts resolved, the outcome is that of the loop. *)
Lemma verify_resolved (u d : string) (mxs : list string) :
  split "@" email = [u; d] ->
  dns_resolve_mx w d = Ret mxs ->
  mxs <> [] ->
  Script.verify_email_smtp w email timeout
  = (fst (Script.probe_all w email timeout mxs),
     EvResolve d :: snd (Script.probe_all w email timeout mxs)).
Proof.
  intros Hs Hd Hne. unfold Script.verify_email_smtp.
  rewrite (parse_two _ _ Hs). io_unfold. rewrite Hd.
  destruct mxs as [|h hs]; [contradiction|].
  destruct (Script.probe_all w email timeout (h :: hs)) as [r t].
  reflexivity.
Qed.

Lemma verify_no_records (u d : string) :
  split "@" email = [u; d] ->
  dns_resolve_mx w d = Ret [] ->
  Script.verify_email_smtp w email timeout
  = (Ret (false, ("No MX records found for domain " ++ d)%string),
     [EvResolve d]).
Proof.
  intros Hs Hd. unfold Script.verify_email_smtp.
  rewrite (parse_two _ _ Hs). io_unfold. rewrite Hd. reflexivity.
Qed.

(** The loop ends in one of its two results. *)
Lemma probe_all_result (hs : list string) :
  fst (Script.probe_all w email timeout hs) = Ret (true, "Email exists")
  \/ fst (Script.probe_all w email timeout hs)
     = Ret (false, Script.inconclusive_msg).
Proof.
  destruct (first_accepting_or_none w email timeout hs)
    as [(pre & h & post & -> & Hpre & Hh)|Hall].
  - left. now rewrite (probe_all_first_accepting _ _ _ _ _ _ Hpre Hh).
  - right. now rewrite (probe_all_exhausted _ _ _ _ Hall).
Qed.

(** Once the address is parsed, the resolver is asked and the result is one
    of the later ones. *)
Lemma verify_parsed (u d : string) :
  split "@" email = [u; d] ->
  fst (Script.verify_email_smtp w email timeout)
    <> Ret (false, Script.missing_at_msg)
  /\ (exists b m, fst (Script.verify_email_smtp w email timeout) = Ret (b, m))
  /\ exists t, snd (Script.verify_email_smtp w email timeout) = EvResolve d :: t.
Proof.
  intros Hs. destruct (dns_resolve_mx w d) as [[|h hs]|e] eqn:Hd.
  - rewrite (verify_no_records _ _ Hs Hd). simpl.
    split; [discriminate|]. split; eauto.
  - rewrite (verify_resolved u d (h :: hs) Hs Hd) by discriminate.
    cbn [fst snd].
    destruct (probe_all_result (h :: hs)) as [E|E]; rewrite E;
      (split; [discriminate|]); split; eauto.
  - unfold Script.verify_email_smtp. rewrite (parse_two _ _ Hs).
    io_unfold. rewrite Hd. destruct (exn_cls e); simpl;
      (split; [discriminate|]); split; eauto.
Qed.

(** [verify_email_smtp] returns; no exception reaches the caller. *)
Lemma verify_returns :
  exists b m, fst (Script.verify_email_smtp w email timeout) = Ret (b, m).
Proof.
  destruct (Nat.eq_dec (List.length (split "@" email)) 2) as [H|H].
  - destruct (split_two_parts H) as (u & d & Hs).
    now destruct (verify_parsed u d Hs) as (_ & Hr & _).
  - rewrite (verify_unparsed H). simpl. eauto.
Qed.

End VerifyFacts.

(** ** C1 *)

(** C1 does not hold as it is written: a host whose reply to the recipient
    declaration is 250 is passed over when [smtp.quit()] then raises, since
    the code tests the reply code only after the session is closed. Here
    both hosts answer 250 and drop the connection on QUIT; the prober tries
    both and reports the inconclusive failure. *)
Lemma verify_email_smtp_reply_250_lost_on_quit :
  dns_resolve_mx quit_drop_world "example.com" = Ret [mx1; mx2]
  /\ replies quit_drop_world "user@example.com" 15 mx1 250
  /\ Script.verify_email_smtp quit_drop_world "user@example.com" 15
     = (Ret (false, Script.inconclusive_msg),
        [EvResolve "example.com";
         EvConnect mx1 15; EvHelo mx1 "probe.example.org";
         EvMail mx1 "emeraldgreen@example.com";
         EvRcpt mx1 "user@example.com"; EvQuit mx1;
         EvConnect mx2 15; EvHelo mx2 "probe.example.org";
         EvMail mx2 "emeraldgreen@example.com";
         EvRcpt mx2 "user@example.com"; EvQuit mx2])
  /\ fst (Script.verify_email_smtp quit_drop_world "user@example.com" 15)
     <> Ret (true, "Email exists").
Proof.
  split; [reflexivity|]. split.
  - unfold replies. repeat split. now exists "OK".
  - split; [reflexivity | discriminate].
Qed.

(** C1, amended. When the MX hosts are resolved and some host answers the
    recipient declaration with 250 and the session with it is closed without
    an error, [verify_email_smtp] returns [(True, "Email exists")] at the
    first such host: the hosts before it are tried in order and no host
    after it is contacted. *)
Theorem verify_email_smtp_first_accepting_host :
  forall (w : world) (email : string) (timeout : Z) (u d : string)
         (pre post : list string) (h : string),
    split "@" email = [u; d] ->
    dns_resolve_mx w d = Ret (pre ++ h :: post) ->
    Forall (fun x => ~ accepts w email timeout x) pre ->
    replies w email timeout h 250 ->
    smtp_quit w h = Ret tt ->
    Script.verify_email_smtp w email timeout
    = (Ret (true, "Email exists"),
       EvResolve d :: attempts w email timeout (pre ++ [h]))
    /\ contacted (snd (Script.verify_email_smtp w email timeout)) = pre ++ [h].
Proof.
  intros w email timeout u d pre post h Hs Hd Hpre Hr Hq.
  assert (Hpre' : Forall (attempt_fails w email timeout) pre).
  { eapply Forall_impl; [|exact Hpre].
    intros x Hx. now apply attempt_fails_not_accepts. }
  assert (Hh : accepts w email timeout h) by (split; assumption).
  assert (Hne : pre ++ h :: post <> []) by (destruct pre; discriminate).
  rewrite (verify_resolved w email timeout u d _ Hs Hd Hne).
  rewrite (probe_all_first_accepting w email timeout pre post h Hpre' Hh).
  split; [reflexivity|]. cbn [fst snd contacted connect_host].
  apply attempts_contacted.
Qed.

Lemma verify_email_smtp_first_accepting_host_witness :
  Script.verify_email_smtp accepting_world "user@example.com" 15
  = (Ret (true, "Email exists"),
     EvResolve "example.com"
       :: attempts accepting_world "user@example.com" 15 ([] ++ [mx1]))
  /\ contacted (snd (Script.verify_email_smtp accepting_world
                       "user@example.com" 15)) = [] ++ [mx1].
Proof.
  apply (verify_email_smtp_first_accepting_host accepting_world
           "user@example.com" 15 "user" "example.com" [] [mx2] mx1).
  - reflexivity.
  - reflexivity.
  - constructor.
  - unfold replies. repeat split. now exists "OK".
  - reflexivity.
Defined.

(** ** C2 *)



(** ** C3 *)




(** ** C4 *)

(** C4 does not hold as it is written: an address with one [@] and an empty
    part splits into two parts, is unpacked without an error, and the
    resolver is asked about its domain. *)
Lemma verify_email_smtp_empty_part_not_missing_at :
  split "@" "user@" = ["user"; ""]
  /\ ~ (exists u d, split "@" "user@" = [u; d] /\ u <> "" /\ d <> "")
  /\ Script.verify_email_smtp dns_failure_world "user@" 15
     = (Ret (false, "DNS error: The DNS query name does not exist."),
        [EvResolve ""])
  /\ Script.verify_email_smtp dns_failure_world "user@" 15
     <> (Ret (false, Script.missing_at_msg), []).
Proof.
  split; [reflexivity|]. split.
  - intros (u & d & H & _ & Hd). injection H as _ <-. now apply Hd.
  - split; [reflexivity | discriminate].
Qed.

(** C4, amended. [verify_email_smtp] fails at once with the "missing @"
    message, nothing asked of the resolver or of a mail server, if and only
    if splitting the string on [@] does not yield exactly two parts, that
    is, if and only if the string does not hold exactly one [@]; the parts
    may be empty. The message arises in no other way. *)
Theorem verify_email_smtp_missing_at_iff :
  forall (w : world) (email : string) (timeout : Z),
    (Script.verify_email_smtp w email timeout
     = (Ret (false, Script.missing_at_msg), [])
     <-> List.length (split "@" email) <> 2)
    /\ (List.length (split "@" email) <> 2 <-> count "@" email <> 1)
    /\ (fst (Script.verify_email_smtp w email timeout)
        = Ret (false, Script.missing_at_msg)
        <-> List.length (split "@" email) <> 2).
Proof.
  intros w email timeout.
  assert (Hback : fst (Script.verify_email_smtp w email timeout)
                  = Ret (false, Script.missing_at_msg) ->
                  List.length (split "@" email) <> 2).
  { intros H Hl. destruct (split_two_parts email Hl) as (u & d & Hs).
    now destruct (verify_parsed w email timeout u d Hs) as (Hn & _). }
  split; [|split].
  - split.
    + intros H. apply Hback. now rewrite H.
    + apply verify_unparsed.
  - rewrite split_length. lia.
  - split; [exact Hback|].
    intros H. now rewrite (verify_unparsed w email timeout H).
Qed.

(** ** C7 *)

(** C7. When the domain of the address resolves to an empty MX record set,
    [verify_email_smtp] returns [False] with the message "No MX records
    found for domain <domain>"; the only call made is the DNS query, and no
    connection to a mail server is opened. *)
Theorem verify_email_smtp_no_mx_records :
  forall (w : world) (email : string) (timeout : Z) (u d : string),
    split "@" email = [u; d] ->
    dns_resolve_mx w d = Ret [] ->
    Script.verify_email_smtp w email timeout
    = (Ret (false, ("No MX records found for domain " ++ d)%string),
       [EvResolve d])
    /\ contacted (snd (Script.verify_email_smtp w email timeout)) = [].
Proof.
  intros w email timeout u d Hs Hd.
  rewrite (verify_no_records w email timeout u d Hs Hd).
  split; reflexivity.
Qed.

Lemma verify_email_smtp_no_mx_records_witness :
  Script.verify_email_smtp no_mx_world "user@example.com" 15
  = (Ret (false, "No MX records found for domain example.com"),
     [EvResolve "example.com"])
  /\ contacted (snd (Script.verify_email_smtp no_mx_world
                       "user@example.com" 15)) = [].
Proof.
  apply (verify_email_smtp_no_mx_records no_mx_world
           "user@example.com" 15 "user" "example.com"); reflexivity.
Defined.

(** ** C9 *)

(** C9. A string accepted by [is_email_format_valid] holds exactly one [@]
    and splits on it into two non-empty parts, so the unpacking in
    [verify_email_smtp] does not raise; [check_email] then runs
    [verify_email_smtp], whose "missing @" result cannot come out. *)
Theorem check_email_never_missing_at :
  forall (w : world) (email : string),
    Script.is_email_format_valid email = true ->
    count "@" email = 1
    /\ (exists u d : string,
          split "@" email = [u; d] /\ u <> "" /\ d <> ""
          /\ Script.parse email = (Ret (Next (u, d)), []))
    /\ Script.check_email w email = Script.verify_email_smtp w email 15
    /\ fst (Script.check_email w email) <> Ret (false, Script.missing_at_msg).
Proof.
  intros w email Hv. unfold Script.is_email_format_valid in Hv.
  destruct (accepted_split email Hv) as (Hc & u & d & Hs & Hu & Hd).
  assert (Hce : Script.check_email w email = Script.verify_email_smtp w email 15).
  { unfold Script.check_email, Script.is_email_format_valid. now rewrite Hv. }
  split; [exact Hc|]. split.
  - exists u, d. repeat split; try assumption. now apply parse_two.
  - split; [exact Hce|]. rewrite Hce.
    now destruct (verify_parsed w email 15 u d Hs) as (Hn & _).
Qed.

Lemma check_email_never_missing_at_witness :
  count "@" "user@example.com" = 1
  /\ (exists u d : string,
        split "@" "user@example.com" = [u; d] /\ u <> "" /\ d <> ""
        /\ Script.parse "user@example.com" = (Ret (Next (u, d)), []))
  /\ Script.check_email accepting_world "user@example.com"
     = Script.verify_email_smtp accepting_world "user@example.com" 15
  /\ fst (Script.check_email accepting_world "user@example.com")
     <> Ret (false, Script.missing_at_msg).
Proof.
  apply (check_email_never_missing_at accepting_world "user@example.com").
  reflexivity.
Defined.

(** ** C10 *)

Lemma append_last_char (a b t : string) (c : ascii) :
  (a ++ String c "")%string = (b ++ t)%string ->
  t <> "" ->
  exists t', t = (t' ++ String c "")%string.
Proof.
  revert b. induction a as [|y a IH]; intros b H Ht.
  - destruct b as [|x b]; simpl in H.
    + exists "". now rewrite <- H.
    + injection H as _ H. symmetry in H. apply append_eq_nil in H.
      destruct H as [_ H]. contradiction.
  - destruct b as [|x b]; simpl in H.
    + exists (String y a). now rewrite <- H.
    + injection H as _ H. now apply (IH b).
Qed.

(** No well-formed address ends in a newline. *)
Lemma well_formed_no_trailing_newline (s : string) :
  ~ well_formed (s ++ nl).
Proof.
  intros (l & d & t & H & _ & _ & _ & _ & Ht & Ht2).
  assert (Hne : t <> "") by (apply length_pos_not_empty; lia).
  assert (H' : (s ++ nl)%string = ((l ++ "@" ++ d ++ ".") ++ t)%string).
  { rewrite H. rewrite ?append_assoc. simpl. now rewrite ?append_assoc. }
  destruct (append_last_char s _ t newline H' Hne) as (t' & ->).
  rewrite all_in_append in Ht. apply andb_prop in Ht. destruct Ht as [_ Ht].
  cbn [all_in] in Ht. rewrite tld_chars_no_newline in Ht. discriminate.
Qed.

(** C10. A well-formed address followed by one newline is accepted by
    [is_email_format_valid], in both variants, although it is not of the
    shape [localpart@domain.tld]: [$] also matches just before a final
    newline. *)
Theorem is_email_format_valid_trailing_newline :
  forall s : string,
    well_formed s ->
    Script.is_email_format_valid (s ++ nl) = true
    /\ Streamlit.is_email_format_valid (Streamlit.CStr (s ++ nl)) = true
    /\ ~ well_formed (s ++ nl).
Proof.
  intros s Hw.
  assert (Hm : re_match pattern (s ++ nl) = true).
  { destruct Hw as (l & d & t & -> & Hl & Hl1 & Hd & Hd1 & Ht & Ht2).
    apply pattern_spec. exists l, d, t, nl.
    split; [|repeat split; try assumption; now right].
    rewrite ?append_assoc. simpl. now rewrite ?append_assoc. }
  split; [exact Hm|]. split; [exact Hm|].
  apply well_formed_no_trailing_newline.
Qed.

Lemma is_email_format_valid_trailing_newline_witness :
  well_formed "user@example.com"
  /\ Script.is_email_format_valid ("user@example.com" ++ nl) = true
  /\ ~ well_formed ("user@example.com" ++ nl).
Proof.
  assert (Hw : well_formed "user@example.com").
  { exists "user", "example", "com". simpl. repeat split; lia. }
  split; [exact Hw|].
  destruct (is_email_format_valid_trailing_newline "user@example.com" Hw)
    as (H1 & _ & H3).
  split; [exact H1 | exact H3].
Defined.

(** ** Tables *)

Section TableFacts.

Import Streamlit.

Lemma find_map_column_other (c c' : string) (f : list cell -> list cell)
      (cols : list (string * (dtype * list cell))) :
  c' <> c ->
  find (named c') (map_column c f cols) = find (named c') cols.
Proof.
  intros Hne. induction cols as [|p cols IH]; simpl; [reflexivity|].
  unfold named in *. destruct (String.eqb_spec (fst p) c) as [Ec|Ec]; simpl.
  - destruct (String.eqb_spec (fst p) c') as [Ec'|Ec']; [congruence | exact IH].
  - destruct (String.eqb (fst p) c'); [reflexivity | exact IH].
Qed.

Lemma find_map_column_same (c : string) (f : list cell -> list cell)
      (cols : list (string * (dtype * list cell))) :
  option_map (fun p => snd (snd p)) (find (named c) (map_column c f cols))
  = option_map f (option_map (fun p => snd (snd p)) (find (named c) cols)).
Proof.
  induction cols as [|p cols IH]; simpl; [reflexivity|].
  unfold named in *. destruct (String.eqb (fst p) c) eqn:E; simpl.
  - now rewrite E.
  - rewrite E. exact IH.
Qed.

(** Changing the values of a column changes no dtype. *)
Lemma find_map_column_dtype (c c' : string) (f : list cell -> list cell)
      (cols : list (string * (dtype * list cell))) :
  option_map (fun p => fst (snd p)) (find (named c') (map_column c f cols))
  = option_map (fun p => fst (snd p)) (find (named c') cols).
Proof.
  induction cols as [|p cols IH]; simpl; [reflexivity|].
  unfold named in *. destruct (String.eqb (fst p) c) eqn:E; simpl.
  - destruct (String.eqb (fst p) c'); [reflexivity | exact IH].
  - destruct (String.eqb (fst p) c'); [reflexivity | exact IH].
Qed.

Lemma find_app_other {A} (c c' : string) (x : A) (cols : list (string * A)) :
  c' <> c ->
  find (named c') (cols ++ [(c, x)]) = find (named c') cols.
Proof.
  intros Hne. induction cols as [|p cols IH]; simpl.
  - unfold named. simpl. destruct (String.eqb_spec c c'); [congruence | reflexivity].
  - destruct (named c' p); [reflexivity | exact IH].
Qed.

Lemma find_app_new {A} (c : string) (x : A) (cols : list (string * A)) :
  existsb (named c) cols = false ->
  find (named c) (cols ++ [(c, x)]) = Some (c, x).
Proof.
  induction cols as [|p cols IH]; simpl.
  - intros _. unfold named. simpl. now rewrite String.eqb_refl.
  - destruct (named c p); [discriminate | exact IH].
Qed.

Lemma find_replace_other {A} (c c' : string) (x : A) (cols : list (string * A)) :
  c' <> c ->
  find (named c') (map (fun p => if named c p then (fst p, x) else p) cols)
  = find (named c') cols.
Proof.
  intros Hne. induction cols as [|p cols IH]; simpl; [reflexivity|].
  unfold named in *. destruct (String.eqb_spec (fst p) c) as [Ec|Ec]; simpl.
  - destruct (String.eqb_spec (fst p) c') as [Ec'|Ec']; [congruence | exact IH].
  - destruct (String.eqb (fst p) c'); [reflexivity | exact IH].
Qed.

Lemma find_replace_same {A} (c : string) (x : A) (cols : list (string * A)) :
  existsb (named c) cols = true ->
  option_map snd
    (find (named c) (map (fun p => if named c p then (fst p, x) else p) cols))
  = Some x.
Proof.
  induction cols as [|p cols IH]; simpl; [discriminate|].
  unfold named in *. destruct (String.eqb (fst p) c) eqn:E; simpl.
  - now rewrite E.
  - rewrite E. exact IH.
Qed.

Lemma has_column_find (df : DataFrame) (c : string) :
  has_column df c = true <-> exists vs, column df c = Some vs.
Proof.
  unfold has_column, column.
  induction (columns df) as [|p cols IH]; simpl.
  - split; [discriminate | intros [vs H]; discriminate].
  - destruct (named c p); simpl; [|exact IH].
    split; [intros _; now exists (snd (snd p)) | reflexivity].
Qed.

Lemma has_column_dtype (df : DataFrame) (c : string) :
  has_column df c = false <-> column_dtype df c = None.
Proof.
  unfold has_column, column_dtype.
  induction (columns df) as [|p cols IH]; simpl; [tauto|].
  destruct (named c p); simpl; [split; discriminate | exact IH].
Qed.

Lemma column_put_other (df : DataFrame) (i : nat) (c c' : string) (x : written) :
  c' <> c -> column (put df i c x) c' = column df c'.
Proof.
  intros Hne. unfold put, column.
  destruct (has_column df c); simpl.
  - now rewrite find_map_column_other.
  - now rewrite find_app_other.
Qed.

Lemma column_put_same (df : DataFrame) (i : nat) (c : string) (x : written)
      (vs : list cell) :
  column df c = Some vs ->
  column (put df i c x) c = Some (set_nth i (cell_of x) vs).
Proof.
  intros H. unfold put.
  assert (Hc : has_column df c = true) by (apply has_column_find; eauto).
  rewrite Hc. unfold column in *. simpl.
  rewrite find_map_column_same, H. reflexivity.
Qed.

Lemma column_put_new (df : DataFrame) (i : nat) (c : string) (x : written) :
  has_column df c = false ->
  column (put df i c x) c
  = Some (set_nth i (cell_of x) (repeat CNaN (nrows df))).
Proof.
  intros H. unfold put. rewrite H. unfold column, has_column in *. simpl.
  now rewrite (find_app_new c _ _ H).
Qed.

(** A write leaves the dtype of every column that was there. *)
Lemma column_dtype_put_keep (df : DataFrame) (i : nat) (c c' : string)
      (x : written) (d : dtype) :
  column_dtype df c' = Some d -> column_dtype (put df i c x) c' = Some d.
Proof.
  intros H. unfold put, column_dtype in *.
  destruct (has_column df c) eqn:Hc; simpl.
  - now rewrite find_map_column_dtype.
  - destruct (string_dec c' c) as [->|Hne].
    + apply has_column_dtype in Hc. unfold column_dtype in Hc.
      rewrite Hc in H. discriminate.
    + now rewrite find_app_other.
Qed.

Lemma column_dtype_put_other (df : DataFrame) (i : nat) (c c' : string)
      (x : written) :
  c' <> c -> column_dtype (put df i c x) c' = column_dtype df c'.
Proof.
  intros Hne. unfold put, column_dtype.
  destruct (has_column df c); simpl.
  - now rewrite find_map_column_dtype.
  - now rewrite find_app_other.
Qed.

Lemma column_dtype_put_new (df : DataFrame) (i : nat) (c : string) (x : written) :
  has_column df c = false ->
  column_dtype (put df i c x) c = Some (created_dtype x).
Proof.
  intros H. unfold put. rewrite H. unfold column_dtype, has_column in *. simpl.
  now rewrite (find_app_new c _ _ H).
Qed.

Lemma column_setitem_other (df : DataFrame) (c c' : string) (v : cell) :
  c' <> c -> column (setitem df c v) c' = column df c'.
Proof.
  intros Hne. unfold setitem, column.
  destruct (has_column df c); simpl.
  - now rewrite find_replace_other.
  - now rewrite find_app_other.
Qed.

Lemma column_setitem_same (df : DataFrame) (c : string) (v : cell) :
  column (setitem df c v) c = Some (repeat v (nrows df)).
Proof.
  unfold setitem. destruct (has_column df c) eqn:Hc; unfold column; simpl.
  - pose proof (find_replace_same c (scalar_dtype v, repeat v (nrows df))
                  (columns df) Hc) as H.
    destruct (find _ _) as [p|]; simpl in *; [|discriminate].
    injection H as H. now rewrite H.
  - now rewrite (find_app_new c _ _ Hc).
Qed.

Lemma column_dtype_setitem_other (df : DataFrame) (c c' : string) (v : cell) :
  c' <> c -> column_dtype (setitem df c v) c' = column_dtype df c'.
Proof.
  intros Hne. unfold setitem, column_dtype.
  destruct (has_column df c); simpl.
  - now rewrite find_replace_other.
  - now rewrite find_app_other.
Qed.

Lemma column_dtype_setitem_same (df : DataFrame) (c : string) (v : cell) :
  column_dtype (setitem df c v) c = Some (scalar_dtype v).
Proof.
  unfold setitem. destruct (has_column df c) eqn:Hc; unfold column_dtype; simpl.
  - pose proof (find_replace_same c (scalar_dtype v, repeat v (nrows df))
                  (columns df) Hc) as H.
    destruct (find _ _) as [p|]; simpl in *; [|discriminate].
    injection H as H. now rewrite H.
  - now rewrite (find_app_new c _ _ Hc).
Qed.

Lemma nrows_put (df : DataFrame) (i : nat) (c : string) (x : written) :
  nrows (put df i c x) = nrows df.
Proof. unfold put. now destruct (has_column df c). Qed.

Lemma nrows_setitem (df : DataFrame) (c : string) (v : cell) :
  nrows (setitem df c v) = nrows df.
Proof. unfold setitem. now destruct (has_column df c). Qed.

Lemma nth_error_set_nth_same {A} (i : nat) (v x : A) (l : list A) :
  nth_error l i = Some x -> nth_error (set_nth i v l) i = Some v.
Proof.
  revert i. induction l as [|y l IH]; intros [|i]; simpl; try discriminate.
  - reflexivity.
  - apply IH.
Qed.

Lemma nth_error_set_nth_other {A} (i j : nat) (v : A) (l : list A) :
  i <> j -> nth_error (set_nth i v l) j = nth_error l j.
Proof.
  revert i j. induction l as [|y l IH]; intros [|i] [|j] H; simpl;
    try reflexivity; try contradiction.
  apply IH. congruence.
Qed.

Lemma length_set_nth {A} (i : nat) (v : A) (l : list A) :
  List.length (set_nth i v l) = List.length l.
Proof.
  revert i. induction l as [|x l IH]; intros [|i]; simpl; auto.
Qed.

(** Writing a cell leaves the other columns as they are. *)
Lemma at_get_put_other (df : DataFrame) (i j : nat) (c c' : string) (x : written) :
  c' <> c -> at_get (put df i c x) j c' = at_get df j c'.
Proof. intros H. unfold at_get. now rewrite column_put_other. Qed.

(** Writing a cell that exists stores the value. *)
Lemma at_get_put_same (df : DataFrame) (i : nat) (c : string) (x : written)
      (y : cell) :
  at_get df i c = Some y -> at_get (put df i c x) i c = Some (cell_of x).
Proof.
  unfold at_get. destruct (column df c) as [vs|] eqn:E; [|discriminate].
  intros H. rewrite (column_put_same _ _ _ _ _ E).
  now apply nth_error_set_nth_same with y.
Qed.

(** Writing a cell of a column that exists leaves the other rows. *)
Lemma at_get_put_row (df : DataFrame) (i j : nat) (c : string) (x : written)
      (y : cell) :
  i <> j -> at_get df j c = Some y -> at_get (put df i c x) j c = Some y.
Proof.
  unfold at_get. destruct (column df c) as [vs|] eqn:E; [|discriminate].
  intros Hij H. rewrite (column_put_same _ _ _ _ _ E).
  now rewrite nth_error_set_nth_other.
Qed.

Lemma at_get_put_keep (df : DataFrame) (i j : nat) (c c' : string)
      (x : written) (y : cell) :
  i <> j -> at_get df j c' = Some y -> at_get (put df i c x) j c' = Some y.
Proof.
  intros Hij H. destruct (string_dec c' c) as [->|Hne].
  - now apply at_get_put_row.
  - now rewrite at_get_put_other.
Qed.

Lemma at_get_setitem_same (df : DataFrame) (j : nat) (c : string) (v : cell) :
  j < nrows df -> at_get (setitem df c v) j c = Some v.
Proof.
  intros H. unfold at_get. rewrite column_setitem_same.
  apply nth_error_repeat. exact H.
Qed.

Lemma at_get_setitem_other (df : DataFrame) (j : nat) (c c' : string) (v : cell) :
  c' <> c -> at_get (setitem df c v) j c' = at_get df j c'.
Proof. intros H. unfold at_get. now rewrite column_setitem_other. Qed.

(** A row of [iterrows] holds the values of the row. *)
Lemma row_get_row_at (df : DataFrame) (i : nat) (c : string) (vs : list cell) :
  column df c = Some vs ->
  row_get (row_at df i) c = Ret (nth i vs CNaN).
Proof.
  unfold column, row_get, row_at.
  induction (columns df) as [|p cols IH]; simpl; [discriminate|].
  unfold named at 1 3. simpl.
  destruct (String.eqb (fst p) c); simpl.
  - intros H. injection H as <-. reflexivity.
  - exact IH.
Qed.

(** A write goes through when the column is missing or takes the value;
    otherwise it raises [TypeError]. *)
Lemma at_set_put (df : DataFrame) (i : nat) (c : string) (x : written) :
  match column_dtype df c with
  | Some d => holds d x = true
  | None => True
  end ->
  at_set df i c x = Ret (put df i c x).
Proof.
  unfold at_set. destruct (column_dtype df c) as [d|]; [|reflexivity].
  intros H. now rewrite H.
Qed.

Lemma at_set_refused (df : DataFrame) (i : nat) (c : string) (x : written)
      (d : dtype) :
  column_dtype df c = Some d -> holds d x = false ->
  at_set df i c x = Raise (type_error x d).
Proof. intros H1 H2. unfold at_set. now rewrite H1, H2. Qed.

Lemma existsb_map_column (c c' : string) (f : list cell -> list cell)
      (cols : list (string * (dtype * list cell))) :
  existsb (named c') (map_column c f cols) = existsb (named c') cols.
Proof.
  induction cols as [|p cols IH]; simpl; [reflexivity|].
  rewrite IH. now destruct (named c p).
Qed.

Lemma existsb_replace {A} (c c' : string) (x : A) (cols : list (string * A)) :
  existsb (named c')
          (map (fun p => if named c p then (fst p, x) else p) cols)
  = existsb (named c') cols.
Proof.
  induction cols as [|p cols IH]; simpl; [reflexivity|].
  rewrite IH. now destruct (named c p).
Qed.

(** Writing a cell adds no column but its own. *)
Lemma has_column_put_other (df : DataFrame) (i : nat) (c c' : string)
      (x : written) :
  c' <> c -> has_column (put df i c x) c' = has_column df c'.
Proof.
  intros Hne. unfold put, has_column.
  destruct (existsb (named c) (columns df)); simpl.
  - apply existsb_map_column.
  - rewrite existsb_app. simpl. unfold named at 2. simpl.
    destruct (String.eqb_spec c c'); [congruence|].
    now rewrite !orb_false_r.
Qed.

Lemma has_column_put_same (df : DataFrame) (i : nat) (c : string) (x : written) :
  has_column (put df i c x) c = true.
Proof.
  unfold put. destruct (has_column df c) eqn:E; unfold has_column in *; simpl.
  - now rewrite existsb_map_column.
  - rewrite existsb_app. simpl. unfold named at 2. simpl.
    rewrite String.eqb_refl. now rewrite orb_true_r.
Qed.

Lemma has_column_put_mono (df : DataFrame) (i : nat) (c c' : string)
      (x : written) :
  has_column df c = true -> has_column (put df i c' x) c = true.
Proof.
  intros H. destruct (string_dec c c') as [->|Hne].
  - apply has_column_put_same.
  - now rewrite has_column_put_other.
Qed.

Lemma has_column_setitem_other (df : DataFrame) (c c' : string) (v : cell) :
  c' <> c -> has_column (setitem df c v) c' = has_column df c'.
Proof.
  intros Hne. unfold setitem, has_column.
  destruct (existsb (named c) (columns df)); simpl.
  - apply existsb_replace.
  - rewrite existsb_app. simpl. unfold named at 2. simpl.
    destruct (String.eqb_spec c c'); [congruence|].
    now rewrite !orb_false_r.
Qed.

Lemma has_column_setitem_same (df : DataFrame) (c : string) (v : cell) :
  has_column (setitem df c v) c = true.
Proof. apply has_column_find. rewrite column_setitem_same. eauto. Qed.

Lemma column_names_put (df : DataFrame) (i : nat) (c : string) (x : written) :
  column_names (put df i c x)
  = column_names df ++ (if has_column df c then [] else [c]).
Proof.
  unfold put, column_names. destruct (has_column df c); simpl.
  - rewrite app_nil_r. unfold map_column. rewrite map_map.
    apply map_ext. intros p. now destruct (named c p).
  - now rewrite map_app.
Qed.

Lemma column_names_setitem (df : DataFrame) (c : string) (v : cell) :
  column_names (setitem df c v)
  = column_names df ++ (if has_column df c then [] else [c]).
Proof.
  unfold setitem, column_names. destruct (has_column df c); simpl.
  - rewrite app_nil_r. rewrite map_map.
    apply map_ext. intros p. now destruct (named c p).
  - now rewrite map_app.
Qed.

End TableFacts.

(** ** What the prober can return and call *)

Section VerifyResults.

Variable w : world.
Variables (email : string) (timeout : Z).

(** The message of [verify_email_smtp] is never the one of the format
    check. *)
Lemma verify_message_not_format (b : bool) (m : string) :
  fst (Script.verify_email_smtp w email timeout) = Ret (b, m) ->
  m <> "Invalid email format".
Proof.
  destruct (Nat.eq_dec (List.length (split "@" email)) 2) as [Hl|Hl].
  - destruct (split_two_parts email Hl) as (u & d & Hs).
    destruct (dns_resolve_mx w d) as [[|h hs]|e] eqn:Hd.
    + rewrite (verify_no_records w email timeout u d Hs Hd). simpl.
      intros H. injection H as _ <-. discriminate.
    + rewrite (verify_resolved w email timeout u d (h :: hs) Hs Hd)
        by discriminate.
      cbn [fst snd].
      destruct (probe_all_result w email timeout (h :: hs)) as [E|E];
        rewrite E; intros H; injection H as _ <-; discriminate.
    + unfold Script.verify_email_smtp. rewrite (parse_two email u d Hs).
      io_unfold. rewrite Hd. destruct (exn_cls e); simpl;
        intros H; injection H as _ <-; discriminate.
  - rewrite (verify_unparsed w email timeout Hl). simpl.
    intros H. injection H as _ <-. discriminate.
Qed.

Lemma probe_network (h : string) :
  forallb is_network (snd (Script.probe w email timeout h)) = true.
Proof.
  io_unfold.
  destruct (smtp_connect w h timeout) as [[]|e1]; simpl;
    [|destruct (exn_cls e1); reflexivity].
  destruct (smtp_helo w h (getfqdn w)) as [[]|e2]; simpl;
    [|destruct (exn_cls e2); reflexivity].
  destruct (smtp_mail w h Script.sender_email) as [[]|e3]; simpl;
    [|destruct (exn_cls e3); reflexivity].
  destruct (smtp_rcpt w h email) as [[code m]|e4]; simpl;
    [|destruct (exn_cls e4); reflexivity].
  destruct (smtp_quit w h) as [[]|e5]; simpl;
    [|destruct (exn_cls e5); reflexivity].
  destruct (code =? 250)%Z; reflexivity.
Qed.

Lemma probe_all_network (hs : list string) :
  forallb is_network (snd (Script.probe_all w email timeout hs)) = true.
Proof.
  induction hs as [|h hs IH]; simpl; [reflexivity|].
  pose proof (probe_network h) as Hh. unfold bind.
  destruct (Script.probe w email timeout h) as [[[r|[]]|e] t]; simpl in *;
    try (rewrite app_nil_r; exact Hh); [|exact Hh].
  destruct (Script.probe_all w email timeout hs) as [r' t']; simpl in *.
  rewrite forallb_app, Hh, IH. reflexivity.
Qed.

(** The calls of [verify_email_smtp] are DNS and SMTP calls only. *)
Lemma verify_network :
  forallb is_network (snd (Script.verify_email_smtp w email timeout)) = true.
Proof.
  destruct (Nat.eq_dec (List.length (split "@" email)) 2) as [Hl|Hl].
  - destruct (split_two_parts email Hl) as (u & d & Hs).
    destruct (dns_resolve_mx w d) as [[|h hs]|e] eqn:Hd.
    + now rewrite (verify_no_records w email timeout u d Hs Hd).
    + rewrite (verify_resolved w email timeout u d (h :: hs) Hs Hd)
        by discriminate.
      cbn [fst snd forallb is_network andb]. apply probe_all_network.
    + unfold Script.verify_email_smtp. rewrite (parse_two email u d Hs).
      io_unfold. rewrite Hd. destruct (exn_cls e); reflexivity.
  - now rewrite (verify_unparsed w email timeout Hl).
Qed.

End VerifyResults.

Lemma filter_all {A} (f : A -> bool) (l : list A) :
  forallb f l = true -> filter f l = l.
Proof.
  induction l as [|x l IH]; simpl; [reflexivity|].
  intros H. apply andb_prop in H. destruct H as [Hx Hl].
  now rewrite Hx, (IH Hl).
Qed.

(** ** The loop of the batch driver *)

Lemma bind_lift_ret {A B} (a : A) (k : A -> io B) :
  bind (lift (Ret a)) k = k a.
Proof. unfold bind, lift. now destruct (k a). Qed.

Lemma bind_call_ret {A B} (ev : event) (a : A) (k : A -> io B) :
  bind (call ev (Ret a)) k = (fst (k a), ev :: snd (k a)).
Proof. unfold bind, call. now destruct (k a). Qed.

Lemma bind_ret_pair {A B} (a : A) (t : list event) (k : A -> io B) :
  bind (Ret a, t) k = (fst (k a), t ++ snd (k a)).
Proof. unfold bind. now destruct (k a). Qed.

Lemma valid_matches (email : string) :
  Streamlit.is_email_format_valid (Streamlit.CStr email) = true ->
  re_match pattern email = true.
Proof. intros H. exact H. Qed.

Section DtypeFacts.

Import Streamlit.

(** Whether a column takes a text does not depend on the text. *)
Lemma holds_text (d : dtype) (s s' : string) :
  holds d (WStr s) = holds d (WStr s').
Proof. now destruct d. Qed.

Lemma at_set_text (df : DataFrame) (i : nat) (c s : string) :
  takes_text df c = true ->
  at_set df i c (WStr s) = Ret (put df i c (WStr s)).
Proof.
  unfold takes_text. intros H. apply at_set_put.
  destruct (column_dtype df c) as [d|]; [|exact I].
  now rewrite (holds_text d s "").
Qed.

Lemma at_set_text_refused (df : DataFrame) (i : nat) (c s : string) :
  takes_text df c = false ->
  exists d, at_set df i c (WStr s) = Raise (type_error (WStr s) d).
Proof.
  unfold takes_text, at_set. intros H.
  destruct (column_dtype df c) as [d|]; [|discriminate].
  exists d. now rewrite (holds_text d s ""), H.
Qed.

Lemma at_set_bool (df : DataFrame) (i : nat) (c : string) (b : bool) :
  column_dtype df c = Some DBool ->
  at_set df i c (WBool b) = Ret (put df i c (WBool b)).
Proof. intros H. apply at_set_put. now rewrite H. Qed.

Lemma at_set_message (df : DataFrame) (i : nat) (c s : string) :
  column_dtype df c = Some DText ->
  at_set df i c (WStr s) = Ret (put df i c (WStr s)).
Proof. intros H. apply at_set_put. now rewrite H. Qed.

(** A column that takes text still does after a write, into it or into
    another column. *)
Lemma takes_text_put (df : DataFrame) (i : nat) (c c' : string) (x : written) :
  takes_text df c' = true -> takes_text (put df i c x) c' = true.
Proof.
  unfold takes_text. destruct (column_dtype df c') as [d|] eqn:E.
  - intros H. now rewrite (column_dtype_put_keep df i c c' x d E).
  - intros _. destruct (string_dec c' c) as [->|Hne].
    + apply has_column_dtype in E. rewrite (column_dtype_put_new df i c x E).
      now destruct x.
    + rewrite (column_dtype_put_other df i c c' x Hne). now rewrite E.
Qed.

Lemma takes_text_put_other (df : DataFrame) (i : nat) (c c' : string)
      (x : written) :
  c' <> c -> takes_text (put df i c x) c' = takes_text df c'.
Proof.
  intros Hne. unfold takes_text. now rewrite column_dtype_put_other.
Qed.

Lemma presets_ready_put (df : DataFrame) (i : nat) (c : string) (x : written) :
  presets_ready df -> presets_ready (put df i c x).
Proof.
  intros (H1 & H2 & H3). repeat split; now apply column_dtype_put_keep.
Qed.

Lemma parts_writable_put (df : DataFrame) (i : nat) (c : string) (x : written) :
  parts_writable df = true -> parts_writable (put df i c x) = true.
Proof.
  unfold parts_writable. intros H. apply andb_prop in H. destruct H as [H1 H2].
  now rewrite !takes_text_put.
Qed.

Lemma initialised_nrows (df : DataFrame) : nrows (initialised df) = nrows df.
Proof. unfold initialised. now rewrite !nrows_setitem. Qed.

Lemma initialised_column (df : DataFrame) (c : string) :
  ~ In c preset_columns -> column (initialised df) c = column df c.
Proof.
  intros Hc. unfold initialised.
  rewrite !column_setitem_other; [reflexivity | | |];
    intros ->; apply Hc; simpl; auto.
Qed.

Lemma initialised_column_dtype (df : DataFrame) (c : string) :
  ~ In c preset_columns -> column_dtype (initialised df) c = column_dtype df c.
Proof.
  intros Hc. unfold initialised.
  rewrite !column_dtype_setitem_other; [reflexivity | | |];
    intros ->; apply Hc; simpl; auto.
Qed.

(** The three assignments before the loop leave the preset columns with
    the dtypes of their values. *)
Lemma presets_ready_initialised (df : DataFrame) : presets_ready (initialised df).
Proof.
  unfold presets_ready, initialised. split; [|split].
  - rewrite !column_dtype_setitem_other by discriminate.
    apply column_dtype_setitem_same.
  - rewrite !column_dtype_setitem_other by discriminate.
    apply column_dtype_setitem_same.
  - apply column_dtype_setitem_same.
Qed.

Lemma parts_writable_initialised (df : DataFrame) :
  parts_writable (initialised df) = parts_writable df.
Proof.
  unfold parts_writable, takes_text.
  rewrite !initialised_column_dtype; [reflexivity | |];
    simpl; intros [H|[H|[H|[]]]]; discriminate.
Qed.

Lemma has_column_initialised (df : DataFrame) (c : string) :
  has_column df c = true -> has_column (initialised df) c = true.
Proof.
  intros H. unfold initialised.
  destruct (string_dec c "validation_message") as [->|H3];
    [apply has_column_setitem_same|].
  rewrite has_column_setitem_other by exact H3.
  destruct (string_dec c "reachable") as [->|H2];
    [apply has_column_setitem_same|].
  rewrite has_column_setitem_other by exact H2.
  destruct (string_dec c "format_valid") as [->|H1];
    [apply has_column_setitem_same|].
  now rewrite has_column_setitem_other by exact H1.
Qed.

End DtypeFacts.

(** ** The per-record update *)

Section RecordUpdate.

Import Streamlit.

Variable w : world.

(** The two shapes of an update. *)
Lemma record_update_cases (email : string) (i : nat) (cur : DataFrame) :
  (is_email_format_valid (CStr email) = false
   /\ record_update w email i cur
      = put (put cur i "format_valid" (WBool false))
            i "validation_message" (WStr "Invalid email format"))
  \/ (is_email_format_valid (CStr email) = true
      /\ exists (b : bool) (m u d : string),
           fst (Script.verify_email_smtp w email 15) = Ret (b, m)
           /\ split "@" email = [u; d] /\ u <> "" /\ d <> ""
           /\ count "@" email = 1
           /\ record_update w email i cur
              = put
                  (put
                     (put
                        (put (put cur i "format_valid" (WBool true))
                             i "username" (WStr u))
                        i "domain" (WStr d))
                     i "reachable" (WBool b))
                  i "validation_message" (WStr m)).
Proof.
  unfold record_update.
  destruct (is_email_format_valid (CStr email)) eqn:Hf; [right | left; auto].
  split; [reflexivity|].
  destruct (verify_returns w email 15) as (b & m & Hb).
  destruct (accepted_split _ (valid_matches _ Hf))
    as (Hc & u & d & Hs & Hu & Hd).
  exists b, m, u, d. unfold verify_email_smtp. rewrite Hb, Hs.
  repeat split; assumption.
Qed.

Lemma record_update_nrows (email : string) (i : nat) (cur : DataFrame) :
  nrows (record_update w email i cur) = nrows cur.
Proof.
  destruct (record_update_cases email i cur)
    as [[_ ->]|(_ & b & m & u & d & _ & _ & _ & _ & _ & ->)];
    now rewrite !nrows_put.
Qed.

(** An update writes to the five result columns only. *)
Lemma record_update_column (email : string) (i : nat) (cur : DataFrame)
      (c : string) :
  ~ In c result_columns ->
  column (record_update w email i cur) c = column cur c.
Proof.
  intros Hc.
  assert (H1 : c <> "format_valid") by (intros ->; apply Hc; simpl; auto).
  assert (H2 : c <> "reachable") by (intros ->; apply Hc; simpl; auto).
  assert (H3 : c <> "validation_message")
    by (intros ->; apply Hc; simpl; auto).
  assert (H4 : c <> "username") by (intros ->; apply Hc; simpl; auto).
  assert (H5 : c <> "domain") by (intros ->; apply Hc; simpl; auto 6).
  destruct (record_update_cases email i cur)
    as [[_ ->]|(_ & b & m & u & d & _ & _ & _ & _ & _ & ->)];
    now rewrite !column_put_other.
Qed.

(** An update of record [i] leaves the cells of the other records. *)
Lemma record_update_keep (email : string) (i j : nat) (cur : DataFrame)
      (c : string) (x : cell) :
  i <> j ->
  at_get cur j c = Some x ->
  at_get (record_update w email i cur) j c = Some x.
Proof.
  intros Hij H.
  destruct (record_update_cases email i cur)
    as [[_ ->]|(_ & b & m & u & d & _ & _ & _ & _ & _ & ->)];
    repeat apply at_get_put_keep; assumption.
Qed.

(** An update stores the format flag of its record. *)
Lemma record_update_format_valid (email : string) (i : nat) (cur : DataFrame)
      (x : cell) :
  at_get cur i "format_valid" = Some x ->
  at_get (record_update w email i cur) i "format_valid"
  = Some (CBool (is_email_format_valid (CStr email))).
Proof.
  intros H.
  destruct (record_update_cases email i cur)
    as [[Hf ->]|(Hf & b & m & u & d & _ & _ & _ & _ & _ & ->)];
    rewrite Hf, !at_get_put_other by discriminate.
  - now apply (at_get_put_same cur i "format_valid" (WBool false) x).
  - now apply (at_get_put_same cur i "format_valid" (WBool true) x).
Qed.

(** An update changes the dtype of no column that was there. *)
Lemma record_update_presets_ready (email : string) (i : nat) (cur : DataFrame) :
  presets_ready cur -> presets_ready (record_update w email i cur).
Proof.
  intros H.
  destruct (record_update_cases email i cur)
    as [[_ ->]|(_ & b & m & u & d & _ & _ & _ & _ & _ & ->)];
    repeat apply presets_ready_put; exact H.
Qed.

Lemma record_update_parts_writable (email : string) (i : nat)
      (cur : DataFrame) :
  parts_writable cur = true ->
  parts_writable (record_update w email i cur) = true.
Proof.
  intros H.
  destruct (record_update_cases email i cur)
    as [[_ ->]|(_ & b & m & u & d & _ & _ & _ & _ & _ & ->)];
    repeat apply parts_writable_put; exact H.
Qed.

(** The update of a format-invalid record does not touch the columns
    [username] and [domain]. *)
Lemma record_update_invalid_parts (email : string) (i : nat) (cur : DataFrame) :
  is_email_format_valid (CStr email) = false ->
  parts_writable (record_update w email i cur) = parts_writable cur.
Proof.
  intros Hf. unfold record_update. rewrite Hf. unfold parts_writable.
  now rewrite !takes_text_put_other by discriminate.
Qed.

End RecordUpdate.

(** ** The batch loop as a fold *)

Section BatchFold.

Import Streamlit.

Variable w : world.
Variable email_col : string.
Variable df : DataFrame.
Variable vals : list cell.

Hypothesis Hini : column (initialised df) email_col = Some vals.

Lemma seen_nth (i : nat) :
  seen df email_col i = py_str (nth i vals CNaN).
Proof. unfold seen, address. now rewrite Hini. Qed.

(** One iteration whose writes go through: it returns the updated table
    and makes the calls of the record. The writes go through when the
    columns [username] and [domain] take text, and for every format-invalid
    record. *)
Lemma process_row_update (total : nat) (cur : DataFrame) (i : nat) :
  presets_ready cur ->
  parts_writable cur = true
  \/ is_email_format_valid (CStr (seen df email_col i)) = false ->
  process_row w email_col total cur (i, row_at (initialised df) i)
  = (Ret (record_update w (seen df email_col i) i cur),
     record_events w total i (seen df email_col i)).
Proof.
  intros Hready Hw. pose proof Hready as (Hfv & Hre & Hms).
  rewrite seen_nth in *. unfold process_row.
  rewrite (row_get_row_at _ i _ _ Hini), bind_lift_ret. cbv zeta.
  unfold record_update, record_events, record_calls.
  revert Hw. generalize (py_str (nth i vals CNaN)). intros email Hw.
  rewrite bind_call_ret.
  rewrite (at_set_bool cur i "format_valid" _ Hfv), bind_lift_ret.
  destruct (is_email_format_valid (CStr email)) eqn:Hf.
  - destruct Hw as [Hw|Hw]; [|discriminate].
    destruct (verify_returns w email 15) as (b & m & Hb).
    destruct (accepted_split _ (valid_matches _ Hf)) as (_ & u & d & Hs & _).
    unfold verify_email_smtp in *.
    destruct (Script.verify_email_smtp w email 15) as [r t].
    cbn [fst snd] in *. subst r. rewrite Hs.
    unfold parts_writable in Hw. apply andb_prop in Hw. destruct Hw as [Hu Hd].
    set (c1 := put cur i "format_valid" (WBool true)).
    assert (E1 : at_set c1 i "username" (WStr u)
                 = Ret (put c1 i "username" (WStr u)))
      by (apply at_set_text; now apply takes_text_put).
    set (c2 := put c1 i "username" (WStr u)) in *.
    assert (E2 : at_set c2 i "domain" (WStr d)
                 = Ret (put c2 i "domain" (WStr d)))
      by (apply at_set_text; now repeat apply takes_text_put).
    set (c3 := put c2 i "domain" (WStr d)) in *.
    assert (E3 : at_set c3 i "reachable" (WBool b)
                 = Ret (put c3 i "reachable" (WBool b)))
      by (apply at_set_bool; now repeat apply column_dtype_put_keep).
    set (c4 := put c3 i "reachable" (WBool b)) in *.
    assert (E4 : at_set c4 i "validation_message" (WStr m)
                 = Ret (put c4 i "validation_message" (WStr m)))
      by (apply at_set_message; now repeat apply column_dtype_put_keep).
    rewrite bind_ret_pair. cbn [unpack2]. rewrite bind_lift_ret.
    rewrite E1, bind_lift_ret, E2, bind_lift_ret, E3, bind_lift_ret, E4.
    cbn. now rewrite app_nil_r.
  - assert (E : at_set (put cur i "format_valid" (WBool false)) i
                       "validation_message" (WStr "Invalid email format")
                = Ret (put (put cur i "format_valid" (WBool false)) i
                           "validation_message" (WStr "Invalid email format")))
      by (apply at_set_message; now apply column_dtype_put_keep).
    rewrite E. reflexivity.
Qed.

(** One iteration that a column refuses: for a format-valid record, when
    the column [username] or the column [domain] does not take text, the
    probe is run and the write then raises [TypeError]. *)
Lemma process_row_refused (total : nat) (cur : DataFrame) (i : nat) :
  presets_ready cur ->
  parts_writable cur = false ->
  is_email_format_valid (CStr (seen df email_col i)) = true ->
  exists e,
    process_row w email_col total cur (i, row_at (initialised df) i)
    = (Raise e,
       EvStatus (i + 1) total (seen df email_col i)
         :: record_calls w (seen df email_col i))
    /\ exn_cls e = TypeError.
Proof.
  intros (Hfv & Hre & Hms) Hw Hf.
  rewrite seen_nth in *. unfold process_row.
  rewrite (row_get_row_at _ i _ _ Hini), bind_lift_ret. cbv zeta.
  unfold record_calls.
  revert Hf. generalize (py_str (nth i vals CNaN)). intros email Hf.
  rewrite bind_call_ret.
  rewrite (at_set_bool cur i "format_valid" _ Hfv), bind_lift_ret.
  rewrite Hf.
  destruct (verify_returns w email 15) as (b & m & Hb).
  destruct (accepted_split _ (valid_matches _ Hf)) as (_ & u & d & Hs & _).
  unfold verify_email_smtp in *.
  destruct (Script.verify_email_smtp w email 15) as [r t].
  cbn [fst snd] in *. subst r. rewrite Hs.
  rewrite bind_ret_pair. cbn [unpack2]. rewrite bind_lift_ret.
  set (c1 := put cur i "format_valid" (WBool true)).
  unfold parts_writable in Hw.
  destruct (takes_text cur "username") eqn:Hu.
  - cbn [andb] in Hw.
    assert (E1 : at_set c1 i "username" (WStr u)
                 = Ret (put c1 i "username" (WStr u)))
      by (apply at_set_text; now apply takes_text_put).
    destruct (at_set_text_refused (put c1 i "username" (WStr u)) i "domain" d)
      as [ty E2].
    { subst c1. now rewrite !takes_text_put_other by discriminate. }
    rewrite E1, bind_lift_ret, E2. cbn.
    eexists. split; [now rewrite app_nil_r | reflexivity].
  - destruct (at_set_text_refused c1 i "username" u) as [ty E1].
    { subst c1. now rewrite takes_text_put_other by discriminate. }
    rewrite E1. cbn.
    eexists. split; [now rewrite app_nil_r | reflexivity].
Qed.

(** The loop over the records [l] whose writes go through is the fold of
    [record_update], and its calls are those of the records, one record
    after the other. *)
Lemma for_rows_fold (total : nat) (l : list nat) :
  forall cur : DataFrame,
    presets_ready cur ->
    parts_writable cur = true
    \/ (forall i, In i l ->
          is_email_format_valid (CStr (seen df email_col i)) = false) ->
    for_rows w email_col total cur
             (map (fun i => (i, row_at (initialised df) i)) l)
    = (Ret (fold_left (fun c i => record_update w (seen df email_col i) i c)
                      l cur),
       flat_map (fun i => record_events w total i (seen df email_col i)) l).
Proof.
  induction l as [|i l IH]; intros cur Hready Hw; [reflexivity|].
  cbn [map for_rows fold_left flat_map].
  rewrite process_row_update;
    [|exact Hready | destruct Hw as [Hw|Hw]; [now left | right; apply Hw; now left]].
  rewrite bind_ret_pair, IH; [reflexivity | |].
  - now apply record_update_presets_ready.
  - destruct Hw as [Hw|Hw].
    + left. now apply record_update_parts_writable.
    + right. intros j Hj. apply Hw. now right.
Qed.

Lemma validate_emails_as_fold :
  parts_writable df = true
  \/ (forall i, i < nrows df ->
        is_email_format_valid (CStr (seen df email_col i)) = false) ->
  validate_emails w email_col df
  = (Ret (fold_left (fun c i => record_update w (seen df email_col i) i c)
                    (seq 0 (nrows df)) (initialised df)),
     flat_map (fun i => record_events w (nrows df) i (seen df email_col i))
              (seq 0 (nrows df))).
Proof.
  intros Hw. unfold validate_emails, iterrows. fold (initialised df).
  rewrite (initialised_nrows df). apply for_rows_fold.
  - apply presets_ready_initialised.
  - destruct Hw as [Hw|Hw].
    + left. now rewrite parts_writable_initialised.
    + right. intros i Hi. apply Hw. apply in_seq in Hi. lia.
Qed.

(** The loop that meets a format-valid record while [username] or [domain]
    does not take text: the records before it are format-invalid and
    processed, the probe of the record is run, and the loop ends in
    [TypeError]; no later record is looked at. *)
Lemma for_rows_refused (total : nat) (pre post : list nat) (k : nat) :
  forall cur : DataFrame,
    presets_ready cur ->
    parts_writable cur = false ->
    (forall i, In i pre ->
       is_email_format_valid (CStr (seen df email_col i)) = false) ->
    is_email_format_valid (CStr (seen df email_col k)) = true ->
    exists e,
      for_rows w email_col total cur
               (map (fun i => (i, row_at (initialised df) i))
                    (pre ++ k :: post))
      = (Raise e,
         flat_map (fun i => record_events w total i (seen df email_col i)) pre
           ++ EvStatus (k + 1) total (seen df email_col k)
           :: record_calls w (seen df email_col k))
      /\ exn_cls e = TypeError.
Proof.
  induction pre as [|i pre IH]; intros cur Hready Hw Hpre Hk.
  - cbn [app map for_rows flat_map].
    destruct (process_row_refused total cur k Hready Hw Hk) as (e & E & He).
    exists e. split; [|exact He]. now rewrite E.
  - cbn [app map for_rows flat_map].
    rewrite process_row_update;
      [|exact Hready | right; apply Hpre; now left].
    destruct (IH (record_update w (seen df email_col i) i cur))
      as (e & E & He).
    + now apply record_update_presets_ready.
    + rewrite record_update_invalid_parts; [exact Hw | apply Hpre; now left].
    + intros j Hj. apply Hpre. now right.
    + exact Hk.
    + exists e. split; [|exact He].
      rewrite bind_ret_pair, E. cbn [fst snd]. now rewrite <- app_assoc.
Qed.

End BatchFold.

(** ** Folding the updates *)

Section FoldFacts.

Import Streamlit.

Variable w : world.
Variable f : nat -> string.

Lemma fold_update_invariant (P : DataFrame -> Prop) (l : list nat) :
  (forall i cur, P cur -> P (record_update w (f i) i cur)) ->
  forall init, P init ->
  P (fold_left (fun c i => record_update w (f i) i c) l init).
Proof.
  intros Hstep. induction l as [|a l IH]; intros init H; simpl; [exact H|].
  apply IH, Hstep, H.
Qed.

Lemma fold_update_keep (l : list nat) (i : nat) (c : string) (x : cell) :
  ~ In i l ->
  forall init, at_get init i c = Some x ->
  at_get (fold_left (fun c i => record_update w (f i) i c) l init) i c
  = Some x.
Proof.
  induction l as [|a l IH]; intros Hi init H; simpl; [exact H|].
  apply IH; [intros Hin; apply Hi; now right|].
  apply record_update_keep; [|exact H].
  intros ->. apply Hi. now left.
Qed.

(** The cell an update writes for its record is there at the end. *)
Lemma fold_update_cell (I : DataFrame -> Prop) (l : list nat) (i : nat)
      (c : string) (y : cell) :
  (forall j cur, I cur -> I (record_update w (f j) j cur)) ->
  (forall cur, I cur -> at_get (record_update w (f i) i cur) i c = Some y) ->
  In i l -> NoDup l ->
  forall init, I init ->
  at_get (fold_left (fun c i => record_update w (f i) i c) l init) i c
  = Some y.
Proof.
  intros HI Hset. induction l as [|a l IH]; intros Hin Hnd init Hinit;
    [contradiction|].
  inversion Hnd as [|? ? Ha Hl]; subst. simpl.
  destruct Hin as [->|Hin].
  - apply fold_update_keep; [exact Ha | now apply Hset].
  - apply IH; [exact Hin | exact Hl | now apply HI].
Qed.

End FoldFacts.

Lemma seen_address (df : Streamlit.DataFrame) (email_col : string) (i : nat) :
  ~ In email_col preset_columns ->
  seen df email_col i = address df email_col i.
Proof.
  intros Hres. unfold seen, address. now rewrite initialised_column.
Qed.

Lemma fold_left_pointwise {A B} (g h : A -> B -> A) (l : list B) :
  (forall a b, g a b = h a b) ->
  forall a, fold_left g l a = fold_left h l a.
Proof.
  intros E. induction l as [|b l IH]; intros a; simpl; [reflexivity|].
  now rewrite E, IH.
Qed.

(** ** C5 *)

(** C5 does not hold of the code: the driver assigns the columns
    [format_valid], [reachable] and [validation_message] before it reads the
    records and does not look whether the table has a column of such a
    name. The table here has one record with a format-valid address (N = 1,
    M = 0) in a column named [reachable]; the assignment overwrites the
    address, the loop reads "False", and the output has one record marked
    invalid, the address itself being lost. *)
Theorem validate_emails_address_column_overwritten :
  address df_reachable_clash "reachable" 0 = "user@example.com"
  /\ format_invalid "user@example.com" = false
  /\ count_format_invalid df_reachable_clash "reachable" = 0
  /\ Streamlit.validate_emails accepting_world "reachable" df_reachable_clash
     = (Ret (Streamlit.mk_df 1
               [("reachable", (Streamlit.DBool, [Streamlit.CBool false]));
                ("format_valid", (Streamlit.DBool, [Streamlit.CBool false]));
                ("validation_message",
                 (Streamlit.DText, [Streamlit.CStr "Invalid email format"]))]),
        [EvStatus 1 1 "False"; EvProgress 1 1; EvSleep])
  /\ count_marked_invalid
       (Streamlit.mk_df 1
          [("reachable", (Streamlit.DBool, [Streamlit.CBool false]));
           ("format_valid", (Streamlit.DBool, [Streamlit.CBool false]));
           ("validation_message",
            (Streamlit.DText, [Streamlit.CStr "Invalid email format"]))])
     = 1
  /\ count_marked_invalid
       (Streamlit.mk_df 1
          [("reachable", (Streamlit.DBool, [Streamlit.CBool false]));
           ("format_valid", (Streamlit.DBool, [Streamlit.CBool false]));
           ("validation_message",
            (Streamlit.DText, [Streamlit.CStr "Invalid email format"]))])
     <> count_format_invalid df_reachable_clash "reachable".
Proof. repeat split. discriminate. Qed.

(** ** C8 *)

(** C8 at a table without a format-valid record: the output has the input
    column and [format_valid], [reachable], [validation_message], and
    neither [username] nor [domain]; with a format-valid record (the second
    table) all five are there. The two columns come into being only when the
    branch for a format-valid record writes a cell of them. *)
Theorem validate_emails_columns_without_valid_record :
  (exists out : Streamlit.DataFrame,
      Streamlit.validate_emails accepting_world "email" df_invalid_only
      = (Ret out, [EvStatus 1 1 "not-an-email"; EvProgress 1 1; EvSleep])
      /\ Streamlit.column_names out
         = ["email"; "format_valid"; "reachable"; "validation_message"]
      /\ Streamlit.has_column out "username" = false
      /\ Streamlit.has_column out "domain" = false)
  /\ (exists out : Streamlit.DataFrame,
        fst (Streamlit.validate_emails accepting_world "email" df_sample)
        = Ret out
        /\ Streamlit.column_names out
           = ["name"; "email"; "format_valid"; "reachable";
              "validation_message"; "username"; "domain"]).
Proof.
  split.
  - eexists. split; [reflexivity|]. repeat split.
  - eexists. split; reflexivity.
Qed.

(* ===================================================================== *)
(** * Further properties of the code *)
(* ===================================================================== *)

(** ** The format check *)

Lemma contains_append (c : ascii) (a b : string) :
  contains c (a ++ b) = contains c a || contains c b.
Proof.
  induction a as [|x a IH]; simpl; [reflexivity|].
  now rewrite IH, orb_assoc.
Qed.

Lemma all_in_contains (cls : char_class) (s : string) (c : ascii) :
  all_in cls s = true -> contains c s = true -> in_class cls c = true.
Proof.
  induction s as [|x s IH]; simpl; [discriminate|].
  intros H Hc. apply andb_prop in H. destruct H as [Hx Hs].
  apply orb_prop in Hc. destruct Hc as [Hc|Hc].
  - apply Ascii.eqb_eq in Hc. now subst.
  - now apply IH.
Qed.

Lemma domain_chars_local (c : ascii) :
  in_class domain_chars c = true -> in_class local_chars c = true.
Proof.
  destruct c as [[|] [|] [|] [|] [|] [|] [|] [|]]; vm_compute; congruence.
Qed.

Lemma tld_chars_local (c : ascii) :
  in_class tld_chars c = true -> in_class local_chars c = true.
Proof.
  destruct c as [[|] [|] [|] [|] [|] [|] [|] [|]]; vm_compute; congruence.
Qed.

Lemma local_chars_no_space : in_class local_chars " " = false.
Proof. reflexivity. Qed.

(** X1. The two variants of the format check agree on text, and they accept
    exactly the strings [local@domain.tld] (non-empty local part of allowed
    characters, non-empty run of domain characters, a dot, two or more
    letters) and those strings followed by one newline. *)
Theorem format_valid_characterised :
  forall s : string,
    Streamlit.is_email_format_valid (Streamlit.CStr s)
    = Script.is_email_format_valid s
    /\ (Script.is_email_format_valid s = true <->
        well_formed s \/ exists s0, s = (s0 ++ nl)%string /\ well_formed s0).
Proof.
  intros s. split; [reflexivity | apply is_email_format_valid_iff].
Qed.

(** X2. Every character of an accepted string is a letter, a digit, one of
    [._%+-], the [@], or a newline; no accepted string holds a space. *)
Theorem format_valid_alphabet :
  forall s : string,
    Script.is_email_format_valid s = true ->
    (forall c : ascii,
        contains c s = true ->
        in_class local_chars c = true \/ c = "@"%char \/ c = newline)
    /\ contains " " s = false.
Proof.
  intros s H.
  assert (Hall : forall c : ascii,
             contains c s = true ->
             in_class local_chars c = true \/ c = "@"%char \/ c = newline).
  { apply pattern_spec in H.
    destruct H as (l & d & t & e & -> & Hl & _ & Hd & _ & Ht & _ & He).
    intros c Hc. rewrite contains_append in Hc.
    apply orb_prop in Hc. destruct Hc as [Hc|Hc];
      [left; now apply (all_in_contains local_chars l)|].
    change ("@" ++ d ++ "." ++ t ++ e)%string
      with (String "@" (d ++ String "." (t ++ e))) in Hc.
    cbn [contains] in Hc. apply orb_prop in Hc. destruct Hc as [Hc|Hc];
      [right; left; apply Ascii.eqb_eq in Hc; now subst|].
    rewrite contains_append in Hc. apply orb_prop in Hc.
    destruct Hc as [Hc|Hc];
      [left; apply domain_chars_local;
       now apply (all_in_contains domain_chars d)|].
    cbn [contains] in Hc. apply orb_prop in Hc. destruct Hc as [Hc|Hc];
      [left; apply Ascii.eqb_eq in Hc; now subst|].
    rewrite contains_append in Hc. apply orb_prop in Hc.
    destruct Hc as [Hc|Hc];
      [left; apply tld_chars_local; now apply (all_in_contains tld_chars t)|].
    destruct He as [-> | ->]; cbn [contains] in Hc; [discriminate|].
    rewrite orb_false_r in Hc. apply Ascii.eqb_eq in Hc.
    right; right. now subst. }
  split; [exact Hall|].
  destruct (contains " " s) eqn:E; [|reflexivity].
  destruct (Hall " "%char E) as [Hs|[Hs|Hs]]; discriminate.
Qed.

Lemma format_valid_alphabet_witness :
  (forall c : ascii,
      contains c "first.last+tag@mail.example.org" = true ->
      in_class local_chars c = true \/ c = "@"%char \/ c = newline)
  /\ contains " " "first.last+tag@mail.example.org" = false.
Proof.
  apply (format_valid_alphabet "first.last+tag@mail.example.org").
  reflexivity.
Defined.

Lemma uint_no_at (d : Decimal.uint) :
  contains "@" (NilEmpty.string_of_uint d) = false.
Proof. induction d; simpl; auto. Qed.

Lemma int_no_at (z : Z) :
  contains "@" (NilZero.string_of_int (Z.to_int z)) = false.
Proof.
  unfold NilZero.string_of_int, NilZero.string_of_uint.
  destruct (Z.to_int z) as [d|d]; destruct d; simpl; auto using uint_no_at.
Qed.

(** X3. In the batch variant a cell that is not text (a missing value, a
    boolean, an integer) is never format-valid. *)
Theorem non_text_cell_invalid :
  forall v : Streamlit.cell,
    (forall s, v <> Streamlit.CStr s) ->
    Streamlit.is_email_format_valid v = false.
Proof.
  intros v Hv.
  assert (Hno : forall s, contains "@" s = false -> re_match pattern s = false).
  { intros s Hs. destruct (re_match pattern s) eqn:E; [|reflexivity].
    apply accepted_split in E. destruct E as [E _].
    apply contains_count in Hs. rewrite Hs in E. discriminate. }
  destruct v as [s|b|z|]; unfold Streamlit.is_email_format_valid; simpl.
  - now contradiction (Hv s).
  - destruct b; reflexivity.
  - apply Hno, int_no_at.
  - reflexivity.
Qed.

Lemma non_text_cell_invalid_witness :
  Streamlit.is_email_format_valid (Streamlit.CInt 42) = false.
Proof.
  apply (non_text_cell_invalid (Streamlit.CInt 42)). intros s. discriminate.
Defined.

(** ** The prober *)

(** The loop contacts a leading part of the list, one attempt each. *)
Lemma probe_all_prefix (w : world) (email : string) (timeout : Z)
      (mxs : list string) :
  exists hs rest,
    mxs = hs ++ rest
    /\ snd (Script.probe_all w email timeout mxs) = attempts w email timeout hs.
Proof.
  destruct (first_accepting_or_none w email timeout mxs)
    as [(pre & h & post & -> & Hpre & Hh)|Hall].
  - exists (pre ++ [h]), post. split.
    + now rewrite <- app_assoc.
    + now rewrite (probe_all_first_accepting w email timeout pre post h Hpre Hh).
  - exists mxs, []. split; [now rewrite app_nil_r|].
    now rewrite (probe_all_exhausted w email timeout mxs Hall).
Qed.

Lemma verify_resolver_raises (w : world) (email : string) (timeout : Z)
      (u d : string) (e : exn) :
  split "@" email = [u; d] ->
  dns_resolve_mx w d = Raise e ->
  Script.verify_email_smtp w email timeout
  = (Ret (false,
          ((match exn_cls e with
            | DNSException => "DNS error: "
            | _ => "Error resolving MX records: "
            end) ++ exn_str e)%string),
     [EvResolve d]).
Proof.
  intros Hs Hd.
  unfold Script.verify_email_smtp. rewrite (parse_two email u d Hs).
  io_unfold. rewrite Hd. destruct (exn_cls e); reflexivity.
Qed.

(** X4. When the resolver raises, [verify_email_smtp] returns [False] with
    "DNS error: <text>" for a DNS exception and "Error resolving MX records:
    <text>" for any other exception; the DNS query is the only call made. *)
Theorem verify_email_smtp_dns_error :
  forall (w : world) (email : string) (timeout : Z) (u d : string) (e : exn),
    split "@" email = [u; d] ->
    dns_resolve_mx w d = Raise e ->
    Script.verify_email_smtp w email timeout
    = (Ret (false,
            ((match exn_cls e with
              | DNSException => "DNS error: "
              | _ => "Error resolving MX records: "
              end) ++ exn_str e)%string),
       [EvResolve d]).
Proof.
  intros w email timeout u d e Hs Hd.
  exact (verify_resolver_raises w email timeout u d e Hs Hd).
Qed.

Lemma verify_email_smtp_dns_error_witness :
  Script.verify_email_smtp resolver_crash_world "user@example.com" 15
  = (Ret (false, "Error resolving MX records: network is unreachable"),
     [EvResolve "example.com"]).
Proof.
  apply (verify_email_smtp_dns_error resolver_crash_world "user@example.com"
           15 "user" "example.com"
           (mk_exn OtherException "network is unreachable"));
    reflexivity.
Defined.

Lemma verify_true_iff (w : world) (email : string) (timeout : Z) (m : string) :
  fst (Script.verify_email_smtp w email timeout) = Ret (true, m) <->
  m = "Email exists"
  /\ exists (u d : string) (pre post : list string) (h : string),
       split "@" email = [u; d]
       /\ dns_resolve_mx w d = Ret (pre ++ h :: post)
       /\ Forall (attempt_fails w email timeout) pre
       /\ accepts w email timeout h.
Proof.
  split.
  - intros H.
    destruct (Nat.eq_dec (List.length (split "@" email)) 2) as [Hl|Hl];
      [|rewrite (verify_unparsed w email timeout Hl) in H; discriminate].
    destruct (split_two_parts email Hl) as (u & d & Hs).
    destruct (dns_resolve_mx w d) as [[|x xs]|e] eqn:Hd.
    + rewrite (verify_no_records w email timeout u d Hs Hd) in H. discriminate.
    + rewrite (verify_resolved w email timeout u d (x :: xs) Hs Hd) in H
        by discriminate.
      cbn [fst] in H.
      destruct (first_accepting_or_none w email timeout (x :: xs))
        as [(pre & h & post & E & Hpre & Hh)|Hall].
      * rewrite E in H, Hd.
        rewrite (probe_all_first_accepting w email timeout pre post h Hpre Hh)
          in H.
        cbn [fst] in H. injection H as <-.
        split; [reflexivity|]. exists u, d, pre, post, h. auto.
      * rewrite (probe_all_exhausted w email timeout (x :: xs) Hall) in H.
        discriminate.
    + rewrite (verify_resolver_raises w email timeout u d e Hs Hd) in H.
      discriminate.
  - intros (-> & u & d & pre & post & h & Hs & Hd & Hpre & Hh).
    rewrite (verify_resolved w email timeout u d _ Hs Hd)
      by (destruct pre; discriminate).
    now rewrite (probe_all_first_accepting w email timeout pre post h Hpre Hh).
Qed.

(** X5. [verify_email_smtp] returns [True] exactly when the address has
    one [@], the MX hosts of its domain are resolved, and some host accepts
    after the attempts at all hosts before it failed; the message is then
    "Email exists". *)
Theorem verify_email_smtp_success_iff :
  forall (w : world) (email : string) (timeout : Z) (m : string),
    fst (Script.verify_email_smtp w email timeout) = Ret (true, m) <->
    m = "Email exists"
    /\ exists (u d : string) (pre post : list string) (h : string),
         split "@" email = [u; d]
         /\ dns_resolve_mx w d = Ret (pre ++ h :: post)
         /\ Forall (attempt_fails w email timeout) pre
         /\ accepts w email timeout h.
Proof. exact verify_true_iff. Qed.

(** X6. Once the address is split, the calls of [verify_email_smtp] are the
    DNS query for the part after the [@], followed by one attempt at each
    host of a leading part of the resolved MX list, in the order of the
    list; no host outside the list is contacted, and none at all when the
    resolver raises. *)
Theorem verify_email_smtp_calls :
  forall (w : world) (email : string) (timeout : Z) (u d : string),
    split "@" email = [u; d] ->
    exists hs : list string,
      snd (Script.verify_email_smtp w email timeout)
      = EvResolve d :: attempts w email timeout hs
      /\ contacted (snd (Script.verify_email_smtp w email timeout)) = hs
      /\ match dns_resolve_mx w d with
         | Ret mxs => exists rest, mxs = hs ++ rest
         | Raise _ => hs = []
         end.
Proof.
  intros w email timeout u d Hs.
  destruct (dns_resolve_mx w d) as [[|x xs]|e] eqn:Hd.
  - rewrite (verify_no_records w email timeout u d Hs Hd).
    exists []. repeat split. now exists [].
  - rewrite (verify_resolved w email timeout u d (x :: xs) Hs Hd)
      by discriminate.
    destruct (probe_all_prefix w email timeout (x :: xs))
      as (hs & rest & E & Htr).
    exists hs. cbn [snd]. rewrite Htr. split; [reflexivity|]. split.
    + cbn [contacted connect_host]. apply attempts_contacted.
    + now exists rest.
  - rewrite (verify_resolver_raises w email timeout u d e Hs Hd).
    exists []. repeat split.
Qed.

Lemma verify_email_smtp_calls_witness :
  exists hs : list string,
    snd (Script.verify_email_smtp first_rejects_world "user@example.com" 15)
    = EvResolve "example.com"
        :: attempts first_rejects_world "user@example.com" 15 hs
    /\ contacted (snd (Script.verify_email_smtp first_rejects_world
                         "user@example.com" 15)) = hs
    /\ exists rest, [mx1; mx2] = hs ++ rest.
Proof.
  apply (verify_email_smtp_calls first_rejects_world "user@example.com" 15
           "user" "example.com").
  reflexivity.
Defined.

(** X7. The calls made to one MX host are fixed by the first step that
    raises: when connect raises, connect is the only call; when HELO raises,
    connect and HELO; when MAIL raises, these and MAIL; when RCPT raises,
    these and RCPT; nothing is sent after a step that raised. When the
    recipient declaration is answered, with any code, the five calls
    connect, HELO with the local host name, MAIL with the fixed sender,
    RCPT with the probed address and QUIT are made, in this order, whatever
    QUIT then does. *)
Theorem probe_calls_in_order :
  forall (w : world) (email : string) (timeout : Z) (h : string),
    (forall e, smtp_connect w h timeout = Raise e ->
       snd (Script.probe w email timeout h) = [EvConnect h timeout])
    /\ (forall e, smtp_connect w h timeout = Ret tt ->
          smtp_helo w h (getfqdn w) = Raise e ->
          snd (Script.probe w email timeout h)
          = [EvConnect h timeout; EvHelo h (getfqdn w)])
    /\ (forall e, smtp_connect w h timeout = Ret tt ->
          smtp_helo w h (getfqdn w) = Ret tt ->
          smtp_mail w h Script.sender_email = Raise e ->
          snd (Script.probe w email timeout h)
          = [EvConnect h timeout; EvHelo h (getfqdn w);
             EvMail h Script.sender_email])
    /\ (forall e, smtp_connect w h timeout = Ret tt ->
          smtp_helo w h (getfqdn w) = Ret tt ->
          smtp_mail w h Script.sender_email = Ret tt ->
          smtp_rcpt w h email = Raise e ->
          snd (Script.probe w email timeout h)
          = [EvConnect h timeout; EvHelo h (getfqdn w);
             EvMail h Script.sender_email; EvRcpt h email])
    /\ (forall code, replies w email timeout h code ->
          snd (Script.probe w email timeout h)
          = [EvConnect h timeout; EvHelo h (getfqdn w);
             EvMail h Script.sender_email; EvRcpt h email; EvQuit h])
    /\ exists n : nat,
         1 <= n <= 5
         /\ snd (Script.probe w email timeout h)
            = firstn n (full_session w email timeout h)
         /\ (n = 5 <-> exists code, replies w email timeout h code).
Proof.
  intros w email timeout h. unfold replies, full_session. io_unfold.
  destruct (smtp_connect w h timeout) as [[]|e1]; simpl.
  2:{ repeat (split; [try discriminate; intros; try discriminate;
                      try (destruct H as (H & _); discriminate)|]).
      - now destruct (exn_cls e1).
      - exists 1. split; [lia|]. split; [now destruct (exn_cls e1)|].
        split; [lia|]. intros (c & H & _). discriminate. }
  destruct (smtp_helo w h (getfqdn w)) as [[]|e2]; simpl.
  2:{ repeat (split; [try discriminate; intros; try discriminate;
                      try (destruct H as (_ & H & _); discriminate)|]).
      - now destruct (exn_cls e2).
      - exists 2. split; [lia|]. split; [now destruct (exn_cls e2)|].
        split; [lia|]. intros (c & _ & H & _). discriminate. }
  destruct (smtp_mail w h Script.sender_email) as [[]|e3]; simpl.
  2:{ repeat (split; [try discriminate; intros; try discriminate;
                      try (destruct H as (_ & _ & H & _); discriminate)|]).
      - now destruct (exn_cls e3).
      - exists 3. split; [lia|]. split; [now destruct (exn_cls e3)|].
        split; [lia|]. intros (c & _ & _ & H & _). discriminate. }
  destruct (smtp_rcpt w h email) as [[code m]|e4]; simpl.
  2:{ repeat (split; [try discriminate; intros; try discriminate;
                      try (destruct H as (_ & _ & _ & m & H); discriminate)|]).
      - now destruct (exn_cls e4).
      - exists 4. split; [lia|]. split; [now destruct (exn_cls e4)|].
        split; [lia|]. intros (c & _ & _ & _ & m & H). discriminate. }
  split; [discriminate|]. split; [discriminate|]. split; [discriminate|].
  split; [discriminate|].
  split.
  - intros c _.
    destruct (smtp_quit w h) as [[]|e5]; simpl;
      [now destruct (code =? 250)%Z | now destruct (exn_cls e5)].
  - exists 5. split; [lia|]. split.
    + destruct (smtp_quit w h) as [[]|e5]; simpl;
        [now destruct (code =? 250)%Z | now destruct (exn_cls e5)].
    + split; [|reflexivity]. intros _. exists code. repeat split. now exists m.
Qed.

Lemma probe_calls_in_order_witness :
  snd (Script.probe timeout_world "user@example.com" 15 mx1)
  = [EvConnect mx1 15].
Proof.
  apply (proj1 (probe_calls_in_order timeout_world "user@example.com" 15 mx1)
               (mk_exn socket_timeout "timed out")).
  reflexivity.
Defined.

(** ** [check_email] and the command-line entry point *)

(** X8. [check_email] makes no call and returns [(False, "Invalid email
    format")] for a string that fails the format check; it returns [True]
    exactly when the format check passes and an MX host of the domain
    accepts after the attempts at the hosts before it failed, with the
    message "Email exists". *)
Theorem check_email_outcomes :
  forall (w : world) (email : string),
    (Script.is_email_format_valid email = false ->
     Script.check_email w email = (Ret (false, "Invalid email format"), []))
    /\ forall m : string,
         fst (Script.check_email w email) = Ret (true, m) <->
         Script.is_email_format_valid email = true
         /\ m = "Email exists"
         /\ exists (u d : string) (pre post : list string) (h : string),
              split "@" email = [u; d]
              /\ dns_resolve_mx w d = Ret (pre ++ h :: post)
              /\ Forall (attempt_fails w email 15) pre
              /\ accepts w email 15 h.
Proof.
  intros w email. unfold Script.check_email. split.
  - intros H. now rewrite H.
  - intros m. destruct (Script.is_email_format_valid email); simpl.
    + rewrite verify_true_iff. tauto.
    + split; [discriminate | intros [H _]; discriminate].
Qed.

(** X9. For a text that fails the format check the command-line program
    prints two lines and no note, and makes no DNS or SMTP call. *)
Theorem script_main_format_invalid :
  forall (w : world) (email_to_check : string),
    Script.is_email_format_valid email_to_check = false ->
    script_main w email_to_check
    = (Ret ["Format check: ❌ Invalid";
            "SMTP check: ❓ Invalid email format"], []).
Proof.
  intros w e H. unfold script_main, Script.check_email.
  rewrite H. reflexivity.
Qed.

Lemma script_main_format_invalid_witness :
  script_main accepting_world "not-an-email"
  = (Ret ["Format check: ❌ Invalid";
          "SMTP check: ❓ Invalid email format"], []).
Proof.
  apply (script_main_format_invalid accepting_world "not-an-email").
  reflexivity.
Defined.

(** X10. For a text that passes the format check the command-line program
    returns normally; it prints the format line, the probe line with the
    result and message of [verify_email_smtp], and the three-line note
    exactly when the probe did not succeed; its calls are those of the
    probe. *)
Theorem script_main_format_valid :
  forall (w : world) (email_to_check : string),
    Script.is_email_format_valid email_to_check = true ->
    exists (b : bool) (m : string),
      fst (Script.verify_email_smtp w email_to_check 15) = Ret (b, m)
      /\ script_main w email_to_check
         = (Ret (["Format check: ✅ Valid";
                  ("SMTP check: " ++ (if b then "✅ " else "❓ ") ++ m)%string]
                   ++ (if b then [] else advisory_note)),
            snd (Script.verify_email_smtp w email_to_check 15)).
Proof.
  intros w e H.
  destruct (verify_returns w e 15) as (b & m & Hb).
  exists b, m. split; [exact Hb|].
  unfold script_main, Script.check_email. rewrite H. cbn [negb].
  destruct (Script.verify_email_smtp w e 15) as [r t]. cbn [fst snd] in *.
  subst r. unfold bind, ret. cbn [negb andb]. rewrite app_nil_r.
  now destruct b.
Qed.

Lemma script_main_format_valid_witness :
  exists (b : bool) (m : string),
    fst (Script.verify_email_smtp timeout_world "user@example.com" 15)
    = Ret (b, m)
    /\ script_main timeout_world "user@example.com"
       = (Ret (["Format check: ✅ Valid";
                ("SMTP check: " ++ (if b then "✅ " else "❓ ") ++ m)%string]
                 ++ (if b then [] else advisory_note)),
          snd (Script.verify_email_smtp timeout_world "user@example.com" 15)).
Proof.
  apply (script_main_format_valid timeout_world "user@example.com").
  reflexivity.
Defined.

(** ** The table the batch driver returns *)

Lemma names_grow_put (base : list string) (df : Streamlit.DataFrame)
      (i : nat) (c : string) (x : Streamlit.written) :
  In c result_columns ->
  (exists extra, Streamlit.column_names df = base ++ extra
                 /\ incl extra result_columns) ->
  exists extra, Streamlit.column_names (Streamlit.put df i c x)
                = base ++ extra /\ incl extra result_columns.
Proof.
  intros Hc (extra & E & Hincl). rewrite column_names_put, E.
  destruct (Streamlit.has_column df c).
  - exists extra. now rewrite app_nil_r.
  - exists (extra ++ [c]). rewrite app_assoc. split; [reflexivity|].
    apply incl_app; [exact Hincl|]. intros y [<-|[]]. exact Hc.
Qed.

Lemma names_grow_setitem (base : list string) (df : Streamlit.DataFrame)
      (c : string) (v : Streamlit.cell) :
  In c result_columns ->
  (exists extra, Streamlit.column_names df = base ++ extra
                 /\ incl extra result_columns) ->
  exists extra, Streamlit.column_names (Streamlit.setitem df c v)
                = base ++ extra /\ incl extra result_columns.
Proof.
  intros Hc (extra & E & Hincl). rewrite column_names_setitem, E.
  destruct (Streamlit.has_column df c).
  - exists extra. now rewrite app_nil_r.
  - exists (extra ++ [c]). rewrite app_assoc. split; [reflexivity|].
    apply incl_app; [exact Hincl|]. intros y [<-|[]]. exact Hc.
Qed.

Lemma names_grow_record_update (w : world) (base : list string)
      (email : string) (i : nat) (cur : Streamlit.DataFrame) :
  (exists extra, Streamlit.column_names cur = base ++ extra
                 /\ incl extra result_columns) ->
  exists extra, Streamlit.column_names (record_update w email i cur)
                = base ++ extra /\ incl extra result_columns.
Proof.
  intros H.
  destruct (record_update_cases w email i cur)
    as [[_ ->]|(_ & b & m & u & d & _ & _ & _ & _ & _ & ->)];
    repeat (apply names_grow_put; [simpl; auto 6|]); exact H.
Qed.

Lemma has_column_some (df : Streamlit.DataFrame) (c : string) :
  Streamlit.has_column df c = true ->
  exists vals, Streamlit.column (initialised df) c = Some vals.
Proof.
  intros H. apply has_column_find. now apply has_column_initialised.
Qed.

Lemma verdict_invalid (w : world) (email : string) :
  Streamlit.is_email_format_valid (Streamlit.CStr email) = false ->
  verdict w email = (false, "Invalid email format").
Proof. unfold verdict. intros H. now rewrite H. Qed.

Lemma verdict_valid (w : world) (email : string) (b : bool) (m : string) :
  Streamlit.is_email_format_valid (Streamlit.CStr email) = true ->
  fst (Script.verify_email_smtp w email 15) = Ret (b, m) ->
  verdict w email = (b, m).
Proof.
  unfold verdict, Streamlit.verify_email_smtp. intros H Hv. now rewrite H, Hv.
Qed.

Section BatchRun.

Import Streamlit.

Variable w : world.
Variable email_col : string.
Variable df : DataFrame.

Hypothesis Hhas : has_column df email_col = true.
Hypothesis Hres : ~ In email_col preset_columns.

(** The run whose writes go through, in terms of the addresses of the
    uploaded table. *)
Lemma run_result :
  parts_writable df = true
  \/ (forall i, i < nrows df ->
        is_email_format_valid (CStr (address df email_col i)) = false) ->
  validate_emails w email_col df
  = (Ret (fold_left
            (fun cur i => record_update w (address df email_col i) i cur)
            (seq 0 (nrows df)) (initialised df)),
     flat_map
       (fun i => record_events w (nrows df) i (address df email_col i))
       (seq 0 (nrows df))).
Proof.
  intros Hw. destruct (has_column_some df email_col Hhas) as [vals Hini].
  rewrite (validate_emails_as_fold w email_col df vals Hini).
  - f_equal.
    + f_equal. apply fold_left_pointwise. intros cur i.
      now rewrite (seen_address df email_col i Hres).
    + apply flat_map_ext. intros i.
      now rewrite (seen_address df email_col i Hres).
  - destruct Hw as [Hw|Hw]; [now left | right].
    intros i Hi. rewrite (seen_address df email_col i Hres). now apply Hw.
Qed.

End BatchRun.

Section BatchCells.

Import Streamlit.

Variable w : world.
Variable f : nat -> string.
Variable df : DataFrame.

Lemma at_get_put_defined (cur : DataFrame) (i j : nat) (c c' : string)
      (x : written) (y : cell) :
  at_get cur j c' = Some y ->
  exists z, at_get (put cur i c x) j c' = Some z.
Proof.
  intros H. destruct (string_dec c' c) as [->|Hne].
  - destruct (Nat.eq_dec i j) as [->|Hij].
    + rewrite (at_get_put_same cur j c x y H). eauto.
    + rewrite (at_get_put_row cur i j c x y Hij H). eauto.
  - rewrite at_get_put_other by exact Hne. eauto.
Qed.

(** The preset cells of the table before the loop. *)
Lemma initialised_cells (j : nat) :
  j < nrows df ->
  at_get (initialised df) j "format_valid" = Some (CBool false)
  /\ at_get (initialised df) j "reachable" = Some (CBool false)
  /\ at_get (initialised df) j "validation_message" = Some (CStr "").
Proof.
  intros Hj. unfold initialised. split; [|split].
  - rewrite !at_get_setitem_other by discriminate.
    now apply at_get_setitem_same.
  - rewrite at_get_setitem_other by discriminate.
    apply at_get_setitem_same. now rewrite nrows_setitem.
  - apply at_get_setitem_same. now rewrite !nrows_setitem.
Qed.

(** What an update leaves in the [reachable] cell of its record. *)
Lemma record_update_reachable (email : string) (i : nat) (cur : DataFrame)
      (x : cell) :
  at_get cur i "reachable" = Some x ->
  at_get (record_update w email i cur) i "reachable"
  = Some (if is_email_format_valid (CStr email)
          then CBool (fst (verdict w email)) else x).
Proof.
  intros H.
  destruct (record_update_cases w email i cur)
    as [[Hf ->]|(Hf & b & m & u & d & Hv & _ & _ & _ & _ & ->)]; rewrite Hf.
  - now rewrite !at_get_put_other by discriminate.
  - rewrite (verdict_valid w email b m Hf Hv). cbn [fst].
    rewrite at_get_put_other by discriminate.
    apply (at_get_put_same _ i "reachable" (WBool b) x).
    now rewrite !at_get_put_other by discriminate.
Qed.

(** An update stores the message of its record. *)
Lemma record_update_message (email : string) (i : nat) (cur : DataFrame)
      (x : cell) :
  at_get cur i "validation_message" = Some x ->
  at_get (record_update w email i cur) i "validation_message"
  = Some (CStr (snd (verdict w email))).
Proof.
  intros H.
  destruct (record_update_cases w email i cur)
    as [[Hf ->]|(Hf & b & m & u & d & Hv & _ & _ & _ & _ & ->)].
  - rewrite (verdict_invalid w email Hf). cbn [snd].
    apply (at_get_put_same _ i "validation_message"
                           (WStr "Invalid email format") x).
    now rewrite !at_get_put_other by discriminate.
  - rewrite (verdict_valid w email b m Hf Hv). cbn [snd].
    apply (at_get_put_same _ i "validation_message" (WStr m) x).
    now rewrite !at_get_put_other by discriminate.
Qed.

Lemma record_update_defined (email : string) (i j : nat) (cur : DataFrame)
      (c : string) (y : cell) :
  at_get cur j c = Some y ->
  exists z, at_get (record_update w email i cur) j c = Some z.
Proof.
  intros H.
  destruct (record_update_cases w email i cur)
    as [[_ ->]|(_ & b & m & u & d & _ & _ & _ & _ & _ & ->)].
  - destruct (at_get_put_defined cur i j "format_valid" c (WBool false) y H)
      as [z1 H1].
    now apply at_get_put_defined with z1.
  - destruct (at_get_put_defined cur i j "format_valid" c (WBool true) y H)
      as [z1 H1].
    destruct (at_get_put_defined _ i j "username" c (WStr u) z1 H1)
      as [z2 H2].
    destruct (at_get_put_defined _ i j "domain" c (WStr d) z2 H2)
      as [z3 H3].
    destruct (at_get_put_defined _ i j "reachable" c (WBool b) z3 H3)
      as [z4 H4].
    now apply at_get_put_defined with z4.
Qed.

(** The three preset cells of record [i] at the end of the loop. *)
Lemma fold_cells (i : nat) :
  i < nrows df ->
  let out := fold_left (fun cur i => record_update w (f i) i cur)
                       (seq 0 (nrows df)) (initialised df) in
  at_get out i "format_valid"
  = Some (CBool (is_email_format_valid (CStr (f i))))
  /\ at_get out i "reachable" = Some (CBool (fst (verdict w (f i))))
  /\ at_get out i "validation_message" = Some (CStr (snd (verdict w (f i)))).
Proof.
  intros Hi out. subst out.
  assert (Hin : In i (seq 0 (nrows df))) by (apply in_seq; lia).
  pose proof (initialised_cells i Hi) as (I1 & I2 & I3).
  split; [|split].
  - apply (fold_update_cell w f
             (fun cur => exists x, at_get cur i "format_valid" = Some x)).
    + intros j cur [x Hx]. now apply record_update_defined with x.
    + intros cur [x Hx]. now apply record_update_format_valid with x.
    + exact Hin.
    + apply seq_NoDup.
    + eauto.
  - apply (fold_update_cell w f
             (fun cur => exists x,
                  at_get cur i "reachable" = Some x
                  /\ (x = CBool false \/ x = CBool (fst (verdict w (f i)))))).
    + intros j cur (x & Hx & Hcase).
      destruct (Nat.eq_dec j i) as [->|Hji].
      * rewrite (record_update_reachable (f i) i cur x Hx).
        destruct (is_email_format_valid (CStr (f i))); eauto.
      * rewrite (record_update_keep w (f j) j i cur _ x Hji Hx). eauto.
    + intros cur (x & Hx & Hcase).
      rewrite (record_update_reachable (f i) i cur x Hx).
      destruct (is_email_format_valid (CStr (f i))) eqn:Hf; [reflexivity|].
      rewrite (verdict_invalid w (f i) Hf) in *. cbn [fst] in *.
      now destruct Hcase as [-> | ->].
    + exact Hin.
    + apply seq_NoDup.
    + eauto.
  - apply (fold_update_cell w f
             (fun cur => exists x, at_get cur i "validation_message" = Some x)).
    + intros j cur [x Hx]. now apply record_update_defined with x.
    + intros cur [x Hx]. now apply record_update_message with x.
    + exact Hin.
    + apply seq_NoDup.
    + eauto.
Qed.

End BatchCells.

(** X11. With the selected column present and not named like a preset
    column, and with the columns [username] and [domain] missing or taking
    text, the run of the batch loop does not raise: it is the left fold of
    the per-record update over the records in index order, and its calls
    are, record by record, one status line, the calls of the probe when the
    address is format-valid, one progress update (i+1)/N and one pacing
    delay. *)
Theorem validate_emails_is_fold :
  forall (w : world) (df : Streamlit.DataFrame) (email_col : string),
    Streamlit.has_column df email_col = true ->
    ~ In email_col preset_columns ->
    parts_writable df = true ->
    Streamlit.validate_emails w email_col df
    = (Ret (fold_left
              (fun cur i => record_update w (address df email_col i) i cur)
              (seq 0 (Streamlit.nrows df)) (initialised df)),
       flat_map
         (fun i => record_events w (Streamlit.nrows df) i
                                 (address df email_col i))
         (seq 0 (Streamlit.nrows df))).
Proof.
  intros w df email_col Hhas Hres Hpw.
  apply run_result; auto.
Qed.

Lemma validate_emails_is_fold_witness :
  Streamlit.validate_emails accepting_world "email" df_sample
  = (Ret (fold_left
            (fun cur i =>
               record_update accepting_world (address df_sample "email" i) i cur)
            (seq 0 3) (initialised df_sample)),
     flat_map
       (fun i => record_events accepting_world 3 i (address df_sample "email" i))
       (seq 0 3)).
Proof.
  apply (validate_emails_is_fold accepting_world df_sample "email").
  - reflexivity.
  - simpl. intros [H|[H|[H|[]]]]; discriminate.
  - reflexivity.
Defined.

(** X12. With the selected column present, and the columns [username] and
    [domain] missing or taking text, the run returns a table with the rows
    of the input; every input column whose name is not one of the five
    result names is unchanged, the input columns keep their places, and
    what is added after them bears result names only. *)
Theorem validate_emails_keeps_input :
  forall (w : world) (df : Streamlit.DataFrame) (email_col : string),
    Streamlit.has_column df email_col = true ->
    parts_writable df = true ->
    exists out : Streamlit.DataFrame,
      fst (Streamlit.validate_emails w email_col df) = Ret out
      /\ Streamlit.nrows out = Streamlit.nrows df
      /\ (forall c, ~ In c result_columns ->
            Streamlit.column out c = Streamlit.column df c)
      /\ exists extra : list string,
           Streamlit.column_names out = Streamlit.column_names df ++ extra
           /\ incl extra result_columns.
Proof.
  intros w df email_col Hhas Hpw.
  destruct (has_column_some df email_col Hhas) as [vals Hini].
  rewrite (validate_emails_as_fold w email_col df vals Hini (or_introl Hpw)).
  cbn [fst].
  eexists. split; [reflexivity|]. split; [|split].
  - apply fold_update_invariant.
    + intros i cur H. now rewrite record_update_nrows.
    + apply initialised_nrows.
  - intros c Hc. apply fold_update_invariant.
    + intros i cur H. now rewrite record_update_column.
    + unfold initialised.
      rewrite !column_setitem_other; [reflexivity | | |];
        intros ->; apply Hc; simpl; auto.
  - apply fold_update_invariant.
    + intros i cur H. now apply names_grow_record_update.
    + unfold initialised.
      repeat (apply names_grow_setitem; [simpl; auto|]).
      exists []. split; [now rewrite app_nil_r | intros x []].
Qed.

Lemma validate_emails_keeps_input_witness :
  exists out : Streamlit.DataFrame,
    fst (Streamlit.validate_emails accepting_world "email" df_with_username)
    = Ret out
    /\ Streamlit.nrows out = 2
    /\ (forall c, ~ In c result_columns ->
          Streamlit.column out c = Streamlit.column df_with_username c)
    /\ exists extra : list string,
         Streamlit.column_names out = ["username"; "email"] ++ extra
         /\ incl extra result_columns.
Proof.
  apply (validate_emails_keeps_input accepting_world df_with_username "email").
  - reflexivity.
  - reflexivity.
Defined.

(** X13. With the selected column present and not named like a preset
    column, and the columns [username] and [domain] missing or taking text,
    the three preset cells of every record hold, at the end of the run: for
    a format-invalid address [False], [False] and "Invalid email format";
    for a format-valid address [True] and the result and message of its
    probe. No record is marked reachable without being marked
    format-valid. *)
Theorem validate_emails_record_cells :
  forall (w : world) (df : Streamlit.DataFrame) (email_col : string),
    Streamlit.has_column df email_col = true ->
    ~ In email_col preset_columns ->
    parts_writable df = true ->
    exists out : Streamlit.DataFrame,
      fst (Streamlit.validate_emails w email_col df) = Ret out
      /\ forall i, i < Streamlit.nrows df ->
           (format_invalid (address df email_col i) = true ->
            Streamlit.at_get out i "format_valid"
            = Some (Streamlit.CBool false)
            /\ Streamlit.at_get out i "reachable"
               = Some (Streamlit.CBool false)
            /\ Streamlit.at_get out i "validation_message"
               = Some (Streamlit.CStr "Invalid email format"))
           /\ (format_invalid (address df email_col i) = false ->
               exists (b : bool) (m : string),
                 fst (Script.verify_email_smtp w (address df email_col i) 15)
                 = Ret (b, m)
                 /\ Streamlit.at_get out i "format_valid"
                    = Some (Streamlit.CBool true)
                 /\ Streamlit.at_get out i "reachable"
                    = Some (Streamlit.CBool b)
                 /\ Streamlit.at_get out i "validation_message"
                    = Some (Streamlit.CStr m))
           /\ (Streamlit.at_get out i "reachable"
               = Some (Streamlit.CBool true) ->
               Streamlit.at_get out i "format_valid"
               = Some (Streamlit.CBool true)).
Proof.
  intros w df email_col Hhas Hres Hpw.
  rewrite (run_result w email_col df Hhas Hres (or_introl Hpw)). cbn [fst].
  eexists. split; [reflexivity|]. intros i Hi.
  destruct (fold_cells w (address df email_col) df i Hi) as (Hfv & Hr & Hm).
  unfold format_invalid.
  destruct (Streamlit.is_email_format_valid
              (Streamlit.CStr (address df email_col i))) eqn:Hf.
  - destruct (verify_returns w (address df email_col i) 15) as (b & m & Hb).
    rewrite (verdict_valid w _ b m Hf Hb) in Hr, Hm. cbn [fst snd] in Hr, Hm.
    split; [discriminate|]. split; [|intros _; exact Hfv].
    intros _. exists b, m. auto.
  - rewrite (verdict_invalid w _ Hf) in Hr, Hm. cbn [fst snd] in Hr, Hm.
    split; [intros _; auto|]. split; [discriminate|].
    rewrite Hr. discriminate.
Qed.

Lemma validate_emails_record_cells_witness :
  exists out : Streamlit.DataFrame,
    fst (Streamlit.validate_emails accepting_world "email" df_sample) = Ret out
    /\ forall i, i < 3 ->
         (format_invalid (address df_sample "email" i) = true ->
          Streamlit.at_get out i "format_valid" = Some (Streamlit.CBool false)
          /\ Streamlit.at_get out i "reachable" = Some (Streamlit.CBool false)
          /\ Streamlit.at_get out i "validation_message"
             = Some (Streamlit.CStr "Invalid email format"))
         /\ (format_invalid (address df_sample "email" i) = false ->
             exists (b : bool) (m : string),
               fst (Script.verify_email_smtp accepting_world
                      (address df_sample "email" i) 15) = Ret (b, m)
               /\ Streamlit.at_get out i "format_valid"
                  = Some (Streamlit.CBool true)
               /\ Streamlit.at_get out i "reachable" = Some (Streamlit.CBool b)
               /\ Streamlit.at_get out i "validation_message"
                  = Some (Streamlit.CStr m))
         /\ (Streamlit.at_get out i "reachable" = Some (Streamlit.CBool true) ->
             Streamlit.at_get out i "format_valid"
             = Some (Streamlit.CBool true)).
Proof.
  apply (validate_emails_record_cells accepting_world df_sample "email").
  - reflexivity.
  - simpl. intros [H|[H|[H|[]]]]; discriminate.
  - reflexivity.
Defined.

(** ** The summary counts *)

(** A column of booleans given cell by cell has the sum of its [True]s. *)
Lemma count_true_pointwise (b : nat -> bool) (vs : list Streamlit.cell) :
  forall k,
    (forall i, i < List.length vs ->
       nth_error vs i = Some (Streamlit.CBool (b (k + i)))) ->
    forallb is_bool_cell vs = true
    /\ count_true vs = List.length (filter b (seq k (List.length vs))).
Proof.
  induction vs as [|v vs IH]; intros k H; [split; reflexivity|].
  assert (Hv : v = Streamlit.CBool (b k)).
  { specialize (H 0 ltac:(simpl; lia)). simpl in H.
    rewrite Nat.add_0_r in H. now injection H. }
  destruct (IH (S k)) as [Hb Hc].
  { intros i Hi. specialize (H (S i) ltac:(simpl; lia)). simpl in H.
    now rewrite Nat.add_succ_r in H. }
  subst v. cbn [forallb is_bool_cell andb List.length seq filter count_true].
  split; [exact Hb|]. destruct (b k); simpl; now rewrite Hc.
Qed.

Section BatchCounts.

Import Streamlit.

Variable w : world.
Variable f : nat -> string.
Variable df : DataFrame.

Lemma column_length_put (cur : DataFrame) (i : nat) (c c' : string)
      (x : written) (n : nat) :
  (exists vs, column cur c = Some vs /\ List.length vs = n) ->
  exists vs, column (put cur i c' x) c = Some vs /\ List.length vs = n.
Proof.
  intros (vs & Hvs & Hn). destruct (string_dec c c') as [<-|Hne].
  - rewrite (column_put_same cur i c x vs Hvs). eexists. split; eauto.
    now rewrite length_set_nth.
  - rewrite column_put_other by exact Hne. eauto.
Qed.

Lemma column_length_run (c : string) :
  In c preset_columns ->
  exists vs,
    column (fold_left (fun cur i => record_update w (f i) i cur)
                      (seq 0 (nrows df)) (initialised df)) c = Some vs
    /\ List.length vs = nrows df.
Proof.
  intros Hc. apply fold_update_invariant.
  - intros i cur H.
    destruct (record_update_cases w (f i) i cur)
      as [[_ ->]|(_ & b & m & u & d & _ & _ & _ & _ & _ & ->)];
      repeat apply column_length_put; exact H.
  - unfold initialised. simpl in Hc. destruct Hc as [<-|[<-|[<-|[]]]].
    + rewrite !column_setitem_other by discriminate.
      rewrite column_setitem_same. eexists. split; eauto.
      apply repeat_length.
    + rewrite !column_setitem_other by discriminate.
      rewrite column_setitem_same. eexists. split; eauto.
      rewrite repeat_length. now rewrite nrows_setitem.
    + rewrite column_setitem_same. eexists. split; eauto.
      rewrite repeat_length. now rewrite !nrows_setitem.
Qed.

(** The sums of the two boolean columns at the end of the loop. *)
Lemma run_sums :
  column_sum (fold_left (fun cur i => record_update w (f i) i cur)
                        (seq 0 (nrows df)) (initialised df)) "format_valid"
  = Some (List.length
            (filter (fun i => is_email_format_valid (CStr (f i)))
                    (seq 0 (nrows df))))
  /\ column_sum (fold_left (fun cur i => record_update w (f i) i cur)
                           (seq 0 (nrows df)) (initialised df)) "reachable"
     = Some (List.length
               (filter (fun i => fst (verdict w (f i))) (seq 0 (nrows df)))).
Proof.
  split.
  - destruct (column_length_run "format_valid") as (vs & Hvs & Hlen);
      [simpl; auto|].
    unfold column_sum. rewrite Hvs.
    destruct (count_true_pointwise
                (fun i => is_email_format_valid (CStr (f i))) vs 0)
      as [Hb Hc].
    { intros i Hi. rewrite Hlen in Hi.
      destruct (fold_cells w f df i Hi) as (H & _ & _).
      unfold at_get in H. now rewrite Hvs in H. }
    now rewrite Hb, Hc, Hlen.
  - destruct (column_length_run "reachable") as (vs & Hvs & Hlen);
      [simpl; auto|].
    unfold column_sum. rewrite Hvs.
    destruct (count_true_pointwise (fun i => fst (verdict w (f i))) vs 0)
      as [Hb Hc].
    { intros i Hi. rewrite Hlen in Hi.
      destruct (fold_cells w f df i Hi) as (_ & H & _).
      unfold at_get in H. now rewrite Hvs in H. }
    now rewrite Hb, Hc, Hlen.
Qed.

End BatchCounts.

Lemma filter_length_le_pointwise {A} (g h : A -> bool) (l : list A) :
  (forall x, g x = true -> h x = true) ->
  List.length (filter g l) <= List.length (filter h l).
Proof.
  intros H. induction l as [|x l IH]; simpl; [lia|].
  destruct (g x) eqn:E.
  - rewrite (H x E). simpl. lia.
  - destruct (h x); simpl; lia.
Qed.

(** X14. At the end of a run (selected column present, not named like a
    preset column; [username] and [domain] missing or taking text) the
    summary's [valid_format_count] is the number N - M of records with a
    format-valid address, and [reachable_count] is the number of records
    whose probe returned [True]; it never exceeds [valid_format_count]. *)
Theorem validate_emails_summary_counts :
  forall (w : world) (df : Streamlit.DataFrame) (email_col : string),
    Streamlit.has_column df email_col = true ->
    ~ In email_col preset_columns ->
    parts_writable df = true ->
    exists (out : Streamlit.DataFrame) (reachable_count : nat),
      fst (Streamlit.validate_emails w email_col df) = Ret out
      /\ column_sum out "format_valid"
         = Some (Streamlit.nrows df - count_format_invalid df email_col)
      /\ column_sum out "reachable" = Some reachable_count
      /\ reachable_count
         = List.length
             (filter (fun i =>
                        Streamlit.is_email_format_valid
                          (Streamlit.CStr (address df email_col i))
                        && match fst (Script.verify_email_smtp
                                        w (address df email_col i) 15) with
                           | Ret (b, _) => b
                           | Raise _ => false
                           end)
                     (seq 0 (Streamlit.nrows df)))
      /\ reachable_count
         <= Streamlit.nrows df - count_format_invalid df email_col.
Proof.
  intros w df email_col Hhas Hres Hpw.
  rewrite (run_result w email_col df Hhas Hres (or_introl Hpw)). cbn [fst].
  destruct (run_sums w (address df email_col) df) as [Hf Hr].
  assert (Hcount :
            List.length
              (filter (fun i => Streamlit.is_email_format_valid
                                  (Streamlit.CStr (address df email_col i)))
                      (seq 0 (Streamlit.nrows df)))
            = Streamlit.nrows df - count_format_invalid df email_col).
  { unfold count_format_invalid, format_invalid.
    pose proof (filter_length
                  (fun i => Streamlit.is_email_format_valid
                              (Streamlit.CStr (address df email_col i)))
                  (seq 0 (Streamlit.nrows df))) as H.
    rewrite length_seq in H. lia. }
  do 2 eexists. split; [reflexivity|]. split; [now rewrite Hf, Hcount|].
  split; [exact Hr|]. split.
  - f_equal. apply filter_ext. intros i. unfold verdict.
    unfold Streamlit.verify_email_smtp.
    destruct (Streamlit.is_email_format_valid
                (Streamlit.CStr (address df email_col i))); [|reflexivity].
    cbn [andb].
    destruct (fst (Script.verify_email_smtp w (address df email_col i) 15))
      as [[b m]|e]; reflexivity.
  - rewrite <- Hcount. apply filter_length_le_pointwise.
    intros i. unfold verdict.
    destruct (Streamlit.is_email_format_valid
                (Streamlit.CStr (address df email_col i)));
      [reflexivity | discriminate].
Qed.

Lemma validate_emails_summary_counts_witness :
  exists (out : Streamlit.DataFrame) (reachable_count : nat),
    fst (Streamlit.validate_emails accepting_world "email" df_sample) = Ret out
    /\ column_sum out "format_valid" = Some (3 - 2)
    /\ column_sum out "reachable" = Some reachable_count
    /\ reachable_count
       = List.length
           (filter (fun i =>
                      Streamlit.is_email_format_valid
                        (Streamlit.CStr (address df_sample "email" i))
                      && match fst (Script.verify_email_smtp accepting_world
                                      (address df_sample "email" i) 15) with
                         | Ret (b, _) => b
                         | Raise _ => false
                         end)
                   (seq 0 3))
    /\ reachable_count <= 3 - 2.
Proof.
  apply (validate_emails_summary_counts accepting_world df_sample "email").
  - reflexivity.
  - simpl. intros [H|[H|[H|[]]]]; discriminate.
  - reflexivity.
Defined.

(** ** The decomposed address *)

(** Joining the pieces of [split] with the separator gives the string
    back. *)
Lemma concat_split (sep : ascii) (s : string) :
  String.concat (String sep "") (split sep s) = s.
Proof.
  induction s as [|x s IH]; [reflexivity|].
  cbn [split]. pose proof (split_not_nil sep s) as Hne.
  destruct (Ascii.eqb_spec x sep) as [->|Hx].
  - destruct (split sep s) as [|p ps]; [contradiction|].
    cbn [String.concat]. simpl. now rewrite <- IH.
  - destruct (split sep s) as [|p ps]; [contradiction|].
    destruct ps as [|q ps]; simpl in *; now rewrite <- IH.
Qed.

Lemma split_two_join (s u d : string) :
  split "@" s = [u; d] -> s = (u ++ "@" ++ d)%string.
Proof.
  intros H. rewrite <- (concat_split "@" s) at 1. now rewrite H.
Qed.

Section Rectangular.

Import Streamlit.

Lemma rectangular_column_length (df : DataFrame) (c : string) (vs : list cell) :
  rectangular df = true -> column df c = Some vs ->
  List.length vs = nrows df.
Proof.
  unfold rectangular, column. generalize (nrows df). intros n.
  induction (columns df) as [|p cols IH]; simpl; [discriminate|].
  intros H. apply andb_prop in H. destruct H as [Hp Hcols].
  destruct (named c p); simpl.
  - intros E. injection E as <-. now apply Nat.eqb_eq.
  - now apply IH.
Qed.

Lemma rectangular_map_column (n i : nat) (c : string) (v : cell)
      (cols : list (string * (dtype * list cell))) :
  forallb (fun p => Nat.eqb (List.length (snd (snd p))) n) cols = true ->
  forallb (fun p => Nat.eqb (List.length (snd (snd p))) n)
          (map_column c (set_nth i v) cols) = true.
Proof.
  induction cols as [|p cols IH]; simpl; [reflexivity|].
  intros H. apply andb_prop in H. destruct H as [Hp Hcols].
  rewrite (IH Hcols), andb_true_r.
  destruct (named c p); simpl; [now rewrite length_set_nth | exact Hp].
Qed.

Lemma rectangular_put (df : DataFrame) (i : nat) (c : string) (x : written) :
  rectangular df = true -> rectangular (put df i c x) = true.
Proof.
  unfold rectangular, put. intros H.
  destruct (has_column df c); simpl.
  - now apply rectangular_map_column.
  - rewrite forallb_app, H. simpl.
    rewrite length_set_nth, repeat_length, Nat.eqb_refl. reflexivity.
Qed.

Lemma rectangular_setitem (df : DataFrame) (c : string) (v : cell) :
  rectangular df = true -> rectangular (setitem df c v) = true.
Proof.
  unfold rectangular, setitem. intros H.
  destruct (has_column df c); simpl.
  - revert H. generalize (nrows df). intros n.
    induction (columns df) as [|p cols IH]; simpl; [reflexivity|].
    intros H. apply andb_prop in H. destruct H as [Hp Hcols].
    rewrite (IH Hcols), andb_true_r.
    destruct (named c p); simpl; [|exact Hp].
    rewrite repeat_length. apply Nat.eqb_refl.
  - rewrite forallb_app, H. simpl.
    rewrite repeat_length, Nat.eqb_refl. reflexivity.
Qed.

(** In a rectangular table a cell written at a row of the table is there,
    whether the column existed or not. *)
Lemma at_get_put_same_rect (df : DataFrame) (i : nat) (c : string)
      (x : written) :
  rectangular df = true -> i < nrows df ->
  at_get (put df i c x) i c = Some (cell_of x).
Proof.
  intros Hrect Hi. destruct (has_column df c) eqn:Hc.
  - apply has_column_find in Hc. destruct Hc as [vs Hvs].
    pose proof (rectangular_column_length df c vs Hrect Hvs) as Hlen.
    destruct (nth_error vs i) as [y|] eqn:Hy.
    + apply at_get_put_same with y. unfold at_get. now rewrite Hvs.
    + apply nth_error_None in Hy. lia.
  - unfold at_get. rewrite (column_put_new df i c x Hc).
    apply nth_error_set_nth_same with CNaN. now apply nth_error_repeat.
Qed.

Variable w : world.

Lemma record_update_rectangular (email : string) (i : nat) (cur : DataFrame) :
  rectangular cur = true -> rectangular (record_update w email i cur) = true.
Proof.
  intros H.
  destruct (record_update_cases w email i cur)
    as [[_ ->]|(_ & b & m & u & d & _ & _ & _ & _ & _ & ->)];
    repeat apply rectangular_put; exact H.
Qed.

(** The update of a format-valid record stores the two parts of its
    address. *)
Lemma record_update_parts (email u d : string) (i : nat) (cur : DataFrame) :
  is_email_format_valid (CStr email) = true ->
  split "@" email = [u; d] ->
  rectangular cur = true -> i < nrows cur ->
  at_get (record_update w email i cur) i "username" = Some (CStr u)
  /\ at_get (record_update w email i cur) i "domain" = Some (CStr d).
Proof.
  intros Hf Hs Hrect Hi.
  destruct (record_update_cases w email i cur)
    as [[Hf' _]|(_ & b & m & u' & d' & _ & Hs' & _ & _ & _ & ->)];
    [congruence|].
  rewrite Hs in Hs'. injection Hs' as <- <-. split.
  - rewrite !at_get_put_other by discriminate.
    apply (at_get_put_same_rect _ i "username" (WStr u));
      [now apply rectangular_put | now rewrite nrows_put].
  - rewrite !at_get_put_other by discriminate.
    apply (at_get_put_same_rect _ i "domain" (WStr d));
      [now repeat apply rectangular_put | now rewrite !nrows_put].
Qed.

End Rectangular.

(** X15. In a rectangular table (selected column present, not named like a
    preset column; [username] and [domain] missing or taking text) every
    record with a format-valid address gets its [username] and [domain]
    cells: two non-empty texts without [@] that, joined by [@], give the
    address back. *)
Theorem validate_emails_username_domain :
  forall (w : world) (df : Streamlit.DataFrame) (email_col : string),
    rectangular df = true ->
    Streamlit.has_column df email_col = true ->
    ~ In email_col preset_columns ->
    parts_writable df = true ->
    exists out : Streamlit.DataFrame,
      fst (Streamlit.validate_emails w email_col df) = Ret out
      /\ forall i, i < Streamlit.nrows df ->
           format_invalid (address df email_col i) = false ->
           exists u d : string,
             Streamlit.at_get out i "username" = Some (Streamlit.CStr u)
             /\ Streamlit.at_get out i "domain" = Some (Streamlit.CStr d)
             /\ address df email_col i = (u ++ "@" ++ d)%string
             /\ u <> "" /\ d <> ""
             /\ contains "@" u = false /\ contains "@" d = false.
Proof.
  intros w df email_col Hrect Hhas Hres Hpw.
  rewrite (run_result w email_col df Hhas Hres (or_introl Hpw)). cbn [fst].
  eexists. split; [reflexivity|]. intros i Hi Hf.
  unfold format_invalid in Hf. apply negb_false_iff in Hf.
  destruct (accepted_split _ (valid_matches _ Hf))
    as (Hc & u & d & Hs & Hu & Hd).
  pose proof (split_two_join _ u d Hs) as Hjoin.
  assert (Hcells :
            forall c y,
              (forall cur, rectangular cur = true
                           /\ Streamlit.nrows cur = Streamlit.nrows df ->
                 Streamlit.at_get
                   (record_update w (address df email_col i) i cur) i c
                 = Some y) ->
              Streamlit.at_get
                (fold_left
                   (fun cur i => record_update w (address df email_col i) i cur)
                   (seq 0 (Streamlit.nrows df)) (initialised df)) i c
              = Some y).
  { intros c y Hset.
    apply (fold_update_cell w (address df email_col)
             (fun cur => rectangular cur = true
                         /\ Streamlit.nrows cur = Streamlit.nrows df)).
    - intros j cur [H1 H2]. split;
        [now apply record_update_rectangular
        | now rewrite record_update_nrows].
    - exact Hset.
    - apply in_seq. lia.
    - apply seq_NoDup.
    - split; [|apply initialised_nrows].
      unfold initialised. now repeat apply rectangular_setitem. }
  exists u, d.
  assert (Hcu : count "@" u = 0 /\ count "@" d = 0).
  { rewrite Hjoin in Hc. rewrite count_append in Hc.
    change ("@" ++ d)%string with (String "@" d) in Hc. simpl in Hc. lia. }
  split; [|split; [|split; [exact Hjoin|]]].
  - apply Hcells. intros cur [H1 H2].
    apply (record_update_parts w _ u d i cur Hf Hs H1). now rewrite H2.
  - apply Hcells. intros cur [H1 H2].
    apply (record_update_parts w _ u d i cur Hf Hs H1). now rewrite H2.
  - repeat split; try assumption; apply contains_count; apply Hcu.
Qed.

Lemma validate_emails_username_domain_witness :
  exists out : Streamlit.DataFrame,
    fst (Streamlit.validate_emails accepting_world "email" df_with_username)
    = Ret out
    /\ forall i, i < 2 ->
         format_invalid (address df_with_username "email" i) = false ->
         exists u d : string,
           Streamlit.at_get out i "username" = Some (Streamlit.CStr u)
           /\ Streamlit.at_get out i "domain" = Some (Streamlit.CStr d)
           /\ address df_with_username "email" i = (u ++ "@" ++ d)%string
           /\ u <> "" /\ d <> ""
           /\ contains "@" u = false /\ contains "@" d = false.
Proof.
  apply (validate_emails_username_domain accepting_world df_with_username
           "email").
  - reflexivity.
  - reflexivity.
  - simpl. intros [H|[H|[H|[]]]]; discriminate.
  - reflexivity.
Defined.

(** ** Which columns the output has *)

Section ColumnPresence.

Import Streamlit.

Variable w : world.

Lemma has_column_record_update_mono (email : string) (i : nat)
      (cur : DataFrame) (c : string) :
  has_column cur c = true -> has_column (record_update w email i cur) c = true.
Proof.
  intros H.
  destruct (record_update_cases w email i cur)
    as [[_ ->]|(_ & b & m & u & d & _ & _ & _ & _ & _ & ->)];
    repeat apply has_column_put_mono; exact H.
Qed.

(** An update brings the two columns of the parts into being exactly when
    its address is format-valid. *)
Lemma has_column_record_update_part (email : string) (i : nat)
      (cur : DataFrame) (c : string) :
  c = "username" \/ c = "domain" ->
  has_column (record_update w email i cur) c
  = has_column cur c || is_email_format_valid (CStr email).
Proof.
  intros Hc.
  destruct (record_update_cases w email i cur)
    as [[Hf ->]|(Hf & b & m & u & d & _ & _ & _ & _ & _ & ->)]; rewrite Hf.
  - rewrite orb_false_r.
    destruct Hc as [-> | ->]; now rewrite !has_column_put_other by discriminate.
  - rewrite orb_true_r. destruct Hc as [-> | ->].
    + rewrite !has_column_put_other by discriminate.
      apply has_column_put_same.
    + rewrite !has_column_put_other by discriminate.
      apply has_column_put_same.
Qed.

Lemma has_column_fold_part (f : nat -> string) (c : string) (l : list nat) :
  c = "username" \/ c = "domain" ->
  forall init,
    has_column (fold_left (fun cur i => record_update w (f i) i cur) l init) c
    = has_column init c
      || existsb (fun i => is_email_format_valid (CStr (f i))) l.
Proof.
  intros Hc. induction l as [|a l IH]; intros init; simpl.
  - now rewrite orb_false_r.
  - rewrite IH, (has_column_record_update_part _ _ _ _ Hc).
    now rewrite orb_assoc.
Qed.

End ColumnPresence.

Lemma existsb_pointwise {A} (g h : A -> bool) (l : list A) :
  (forall x, g x = h x) -> existsb g l = existsb h l.
Proof.
  intros E. induction l as [|x l IH]; simpl; [reflexivity|].
  now rewrite E, IH.
Qed.

(** X16. At the end of a run (selected column present, not named like a
    preset column; [username] and [domain] missing or taking text) the
    columns [format_valid], [reachable] and [validation_message] are always
    there; [username] (and likewise [domain]) is there exactly when the
    input had such a column or some record has a format-valid address. *)
Theorem validate_emails_result_columns :
  forall (w : world) (df : Streamlit.DataFrame) (email_col : string),
    Streamlit.has_column df email_col = true ->
    ~ In email_col preset_columns ->
    parts_writable df = true ->
    exists out : Streamlit.DataFrame,
      fst (Streamlit.validate_emails w email_col df) = Ret out
      /\ (forall c, In c preset_columns -> Streamlit.has_column out c = true)
      /\ forall c, c = "username" \/ c = "domain" ->
           Streamlit.has_column out c
           = Streamlit.has_column df c
             || existsb (fun i => negb (format_invalid (address df email_col i)))
                        (seq 0 (Streamlit.nrows df)).
Proof.
  intros w df email_col Hhas Hres Hpw.
  rewrite (run_result w email_col df Hhas Hres (or_introl Hpw)). cbn [fst].
  eexists. split; [reflexivity|]. split.
  - intros c Hc. apply fold_update_invariant.
    + intros i cur H. now apply has_column_record_update_mono.
    + unfold initialised. simpl in Hc. destruct Hc as [<-|[<-|[<-|[]]]].
      * rewrite !has_column_setitem_other by discriminate.
        apply has_column_setitem_same.
      * rewrite !has_column_setitem_other by discriminate.
        apply has_column_setitem_same.
      * apply has_column_setitem_same.
  - intros c Hc. rewrite (has_column_fold_part w _ c _ Hc).
    f_equal.
    + unfold initialised.
      destruct Hc as [-> | ->];
        now rewrite !has_column_setitem_other by discriminate.
    + apply existsb_pointwise. intros i. unfold format_invalid.
      now rewrite negb_involutive.
Qed.

Lemma validate_emails_result_columns_witness :
  exists out : Streamlit.DataFrame,
    fst (Streamlit.validate_emails accepting_world "email" df_sample) = Ret out
    /\ (forall c, In c preset_columns -> Streamlit.has_column out c = true)
    /\ forall c, c = "username" \/ c = "domain" ->
         Streamlit.has_column out c
         = Streamlit.has_column df_sample c
           || existsb (fun i => negb (format_invalid
                                        (address df_sample "email" i)))
                      (seq 0 3).
Proof.
  apply (validate_emails_result_columns accepting_world df_sample "email").
  - reflexivity.
  - simpl. intros [H|[H|[H|[]]]]; discriminate.
  - reflexivity.
Defined.

(** X17. A record with a format-invalid address keeps the [username] and
    [domain] cells the input had for it: when the input has such columns,
    and they take text, only the records with a format-valid address are
    overwritten. *)
Theorem validate_emails_invalid_keeps_parts :
  forall (w : world) (df : Streamlit.DataFrame) (email_col : string)
         (i : nat) (c : string) (x : Streamlit.cell),
    Streamlit.has_column df email_col = true ->
    ~ In email_col preset_columns ->
    parts_writable df = true ->
    format_invalid (address df email_col i) = true ->
    c = "username" \/ c = "domain" ->
    Streamlit.at_get df i c = Some x ->
    exists out : Streamlit.DataFrame,
      fst (Streamlit.validate_emails w email_col df) = Ret out
      /\ Streamlit.at_get out i c = Some x.
Proof.
  intros w df email_col i c x Hhas Hres Hpw Hinv Hc Hx.
  rewrite (run_result w email_col df Hhas Hres (or_introl Hpw)). cbn [fst].
  eexists. split; [reflexivity|].
  apply (fold_update_invariant w (address df email_col)
           (fun cur => Streamlit.at_get cur i c = Some x)).
  - intros j cur H. destruct (Nat.eq_dec j i) as [->|Hji].
    + destruct (record_update_cases w (address df email_col i) i cur)
        as [[_ ->]|(Hf & _)].
      * destruct Hc as [-> | ->];
          now rewrite !at_get_put_other by discriminate.
      * unfold format_invalid in Hinv. rewrite Hf in Hinv. discriminate.
    + now apply record_update_keep.
  - unfold initialised.
    destruct Hc as [-> | ->];
      now rewrite !at_get_setitem_other by discriminate.
Qed.

Lemma validate_emails_invalid_keeps_parts_witness :
  exists out : Streamlit.DataFrame,
    fst (Streamlit.validate_emails accepting_world "email" df_with_username)
    = Ret out
    /\ Streamlit.at_get out 1 "username" = Some (Streamlit.CStr "old2").
Proof.
  apply (validate_emails_invalid_keeps_parts accepting_world df_with_username
           "email" 1 "username" (Streamlit.CStr "old2")).
  - reflexivity.
  - simpl. intros [H|[H|[H|[]]]]; discriminate.
  - reflexivity.
  - reflexivity.
  - now left.
  - reflexivity.
Defined.

(** ** A selected column that bears a preset name *)

Lemma record_events_silent (w : world) (total i : nat) (email : string) :
  Streamlit.is_email_format_valid (Streamlit.CStr email) = false ->
  filter is_network (record_events w total i email) = [].
Proof.
  intros H. unfold record_events, record_calls. now rewrite H.
Qed.

Lemma flat_map_invalid_silent (w : world) (f : nat -> string) (total : nat)
      (l : list nat) :
  (forall i, Streamlit.is_email_format_valid (Streamlit.CStr (f i)) = false) ->
  filter is_network (flat_map (fun i => record_events w total i (f i)) l) = [].
Proof.
  intros Hinv. induction l as [|a l IH]; [reflexivity|].
  cbn [flat_map]. now rewrite filter_app, record_events_silent, IH.
Qed.

Lemma nth_repeat_cases {A} (v d : A) (n i : nat) :
  nth i (repeat v n) d = v \/ nth i (repeat v n) d = d.
Proof.
  revert i. induction n as [|n IH]; intros [|i]; simpl; auto.
Qed.

(** What the loop reads when the selected column bears a preset name. *)
Lemma seen_preset (df : Streamlit.DataFrame) (email_col : string) :
  In email_col preset_columns ->
  (exists vals, Streamlit.column (initialised df) email_col = Some vals)
  /\ forall i,
       Streamlit.is_email_format_valid
         (Streamlit.CStr (seen df email_col i)) = false.
Proof.
  intros Hc.
  assert (H : exists v n,
             Streamlit.column (initialised df) email_col = Some (repeat v n)
             /\ (v = Streamlit.CBool false \/ v = Streamlit.CStr "")).
  { unfold initialised. simpl in Hc. destruct Hc as [<-|[<-|[<-|[]]]].
    - rewrite !column_setitem_other by discriminate.
      rewrite column_setitem_same. eauto.
    - rewrite !column_setitem_other by discriminate.
      rewrite column_setitem_same. eauto.
    - rewrite column_setitem_same. eauto. }
  destruct H as (v & n & Hv & Hcase). split; [eauto|].
  intros i. unfold seen, address. rewrite Hv.
  destruct (nth_repeat_cases v Streamlit.CNaN n i) as [-> | ->];
    [destruct Hcase as [-> | ->]|]; reflexivity.
Qed.

(** X18. When the selected column is named [format_valid], [reachable] or
    [validation_message], its values are overwritten before the loop reads
    them: the run returns, makes no DNS or SMTP call, and marks every record
    as format-invalid, whatever the column held. *)
Theorem validate_emails_preset_clash :
  forall (w : world) (df : Streamlit.DataFrame) (email_col : string),
    In email_col preset_columns ->
    exists out : Streamlit.DataFrame,
      fst (Streamlit.validate_emails w email_col df) = Ret out
      /\ filter is_network (snd (Streamlit.validate_emails w email_col df)) = []
      /\ forall i, i < Streamlit.nrows df ->
           Streamlit.at_get out i "format_valid" = Some (Streamlit.CBool false)
           /\ Streamlit.at_get out i "reachable" = Some (Streamlit.CBool false)
           /\ Streamlit.at_get out i "validation_message"
              = Some (Streamlit.CStr "Invalid email format").
Proof.
  intros w df email_col Hc.
  destruct (seen_preset df email_col Hc) as [[vals Hini] Hinv].
  rewrite (validate_emails_as_fold w email_col df vals Hini)
    by (right; intros i _; apply Hinv).
  cbn [fst snd].
  eexists. split; [reflexivity|]. split.
  - now apply flat_map_invalid_silent.
  - intros i Hi.
    destruct (fold_cells w (seen df email_col) df i Hi) as (H1 & H2 & H3).
    rewrite (verdict_invalid w _ (Hinv i)) in H2, H3.
    rewrite (Hinv i) in H1. auto.
Qed.

Lemma validate_emails_preset_clash_witness :
  exists out : Streamlit.DataFrame,
    fst (Streamlit.validate_emails accepting_world "reachable"
                                   df_reachable_clash) = Ret out
    /\ filter is_network
         (snd (Streamlit.validate_emails accepting_world "reachable"
                                         df_reachable_clash)) = []
    /\ forall i, i < 1 ->
         Streamlit.at_get out i "format_valid" = Some (Streamlit.CBool false)
         /\ Streamlit.at_get out i "reachable" = Some (Streamlit.CBool false)
         /\ Streamlit.at_get out i "validation_message"
            = Some (Streamlit.CStr "Invalid email format").
Proof.
  apply (validate_emails_preset_clash accepting_world df_reachable_clash
           "reachable").
  simpl. auto.
Defined.

(** ** A column that refuses the parts of the address *)

Lemma seq_split (n k : nat) :
  k < n -> seq 0 n = seq 0 k ++ k :: seq (S k) (n - S k).
Proof.
  intros H. replace n with (k + S (n - S k)) at 1 by lia.
  now rewrite seq_app.
Qed.

(** Below [n], a test holds throughout or fails for a first time. *)
Lemma first_failure (P : nat -> bool) (n : nat) :
  (forall i, i < n -> P i = true)
  \/ exists k, k < n /\ P k = false /\ forall i, i < k -> P i = true.
Proof.
  induction n as [|n [IH|(k & Hk & Hf & Hpre)]].
  - left. intros i Hi. lia.
  - destruct (P n) eqn:Hn.
    + left. intros i Hi. destruct (Nat.eq_dec i n) as [->|Hne];
        [exact Hn | apply IH; lia].
    + right. exists n. split; [lia|]. split; [exact Hn | exact IH].
  - right. exists k. split; [lia|]. split; assumption.
Qed.

Section Refused.

Import Streamlit.

Variable w : world.
Variable email_col : string.
Variable df : DataFrame.

Hypothesis Hhas : has_column df email_col = true.
Hypothesis Hres : ~ In email_col preset_columns.
Hypothesis Hpw : parts_writable df = false.

(** The run that meets its first format-valid record at index [k]. *)
Lemma run_refused (k : nat) :
  k < nrows df ->
  format_invalid (address df email_col k) = false ->
  (forall i, i < k -> format_invalid (address df email_col i) = true) ->
  exists e,
    validate_emails w email_col df
    = (Raise e,
       flat_map
         (fun i => record_events w (nrows df) i (address df email_col i))
         (seq 0 k)
         ++ EvStatus (k + 1) (nrows df) (address df email_col k)
         :: record_calls w (address df email_col k))
    /\ exn_cls e = TypeError.
Proof.
  intros Hk Hvalid Hpre.
  destruct (has_column_some df email_col Hhas) as [vals Hini].
  destruct (for_rows_refused w email_col df vals Hini (nrows df)
              (seq 0 k) (seq (S k) (nrows df - S k)) k (initialised df))
    as (e & E & He).
  - apply presets_ready_initialised.
  - now rewrite parts_writable_initialised.
  - intros i Hi. apply in_seq in Hi.
    rewrite (seen_address df email_col i Hres).
    specialize (Hpre i ltac:(lia)). unfold format_invalid in Hpre.
    now apply negb_true_iff in Hpre.
  - rewrite (seen_address df email_col k Hres).
    unfold format_invalid in Hvalid. now apply negb_false_iff in Hvalid.
  - exists e. split; [|exact He].
    unfold validate_emails, iterrows. fold (initialised df).
    rewrite (initialised_nrows df), (seq_split (nrows df) k Hk), E.
    rewrite (seen_address df email_col k Hres). f_equal. f_equal.
    apply flat_map_ext. intros i.
    now rewrite (seen_address df email_col i Hres).
Qed.

End Refused.

(** X20. When the uploaded table has a column [username] or [domain] that
    does not take text (a column of integers, of floats or of booleans), the
    run ends in [TypeError] at the first record with a format-valid
    address: the records before it are processed, the probe of that record
    is run, the write of the part raises, and there is neither a progress
    update nor a pacing delay for that record, nor any call for a later
    one. *)
Theorem validate_emails_type_error :
  forall (w : world) (df : Streamlit.DataFrame) (email_col : string) (k : nat),
    Streamlit.has_column df email_col = true ->
    ~ In email_col preset_columns ->
    parts_writable df = false ->
    k < Streamlit.nrows df ->
    format_invalid (address df email_col k) = false ->
    (forall i, i < k -> format_invalid (address df email_col i) = true) ->
    exists e : exn,
      Streamlit.validate_emails w email_col df
      = (Raise e,
         flat_map
           (fun i => record_events w (Streamlit.nrows df) i
                                   (address df email_col i))
           (seq 0 k)
           ++ EvStatus (k + 1) (Streamlit.nrows df) (address df email_col k)
           :: snd (Script.verify_email_smtp w (address df email_col k) 15))
      /\ exn_cls e = TypeError.
Proof.
  intros w df email_col k Hhas Hres Hpw Hk Hvalid Hpre.
  destruct (run_refused w email_col df Hhas Hres Hpw k Hk Hvalid Hpre)
    as (e & E & He).
  exists e. split; [|exact He]. rewrite E. do 3 f_equal.
  unfold record_calls, Streamlit.verify_email_smtp.
  unfold format_invalid in Hvalid. apply negb_false_iff in Hvalid.
  now rewrite Hvalid.
Qed.

Lemma validate_emails_type_error_witness :
  exists e : exn,
    Streamlit.validate_emails accepting_world "email" df_int_username
    = (Raise e,
       flat_map
         (fun i => record_events accepting_world 3 i
                                 (address df_int_username "email" i))
         (seq 0 1)
         ++ EvStatus (1 + 1) 3 (address df_int_username "email" 1)
         :: snd (Script.verify_email_smtp
                   accepting_world (address df_int_username "email" 1) 15))
    /\ exn_cls e = TypeError.
Proof.
  apply (validate_emails_type_error accepting_world df_int_username "email" 1).
  - reflexivity.
  - simpl. intros [H|[H|[H|[]]]]; discriminate.
  - reflexivity.
  - simpl. lia.
  - reflexivity.
  - intros i Hi. assert (i = 0) as -> by lia. reflexivity.
Defined.

(** X21. With the selected column present and not named like a preset
    column, the run returns a table exactly when the columns [username] and
    [domain] are missing or take text, or no record has a format-valid
    address; otherwise it ends in an exception. *)
Theorem validate_emails_returns_iff :
  forall (w : world) (df : Streamlit.DataFrame) (email_col : string),
    Streamlit.has_column df email_col = true ->
    ~ In email_col preset_columns ->
    ((exists out : Streamlit.DataFrame,
         fst (Streamlit.validate_emails w email_col df) = Ret out)
     <-> parts_writable df = true
         \/ forall i, i < Streamlit.nrows df ->
              format_invalid (address df email_col i) = true).
Proof.
  intros w df email_col Hhas Hres. split.
  - intros [out Hout].
    destruct (parts_writable df) eqn:Hpw; [now left | right].
    destruct (first_failure (fun i => format_invalid (address df email_col i))
                            (Streamlit.nrows df))
      as [Hall|(k & Hk & Hvalid & Hpre)]; [exact Hall|].
    destruct (run_refused w email_col df Hhas Hres Hpw k Hk Hvalid Hpre)
      as (e & E & _).
    rewrite E in Hout. discriminate.
  - intros Hw. rewrite (run_result w email_col df Hhas Hres); [cbn; eauto|].
    destruct Hw as [Hw|Hw]; [now left | right].
    intros i Hi. specialize (Hw i Hi). unfold format_invalid in Hw.
    now apply negb_true_iff in Hw.
Qed.

Lemma validate_emails_returns_iff_witness :
  (exists out : Streamlit.DataFrame,
      fst (Streamlit.validate_emails accepting_world "email" df_int_username)
      = Ret out)
  <-> parts_writable df_int_username = true
      \/ forall i, i < 3 ->
           format_invalid (address df_int_username "email" i) = true.
Proof.
  apply (validate_emails_returns_iff accepting_world df_int_username "email").
  - reflexivity.
  - simpl. intros [H|[H|[H|[]]]]; discriminate.
Defined.

(** ** The records marked invalid and the calls of a run *)

Lemma network_record_events (w : world) (total i : nat) (email : string) :
  filter is_network (record_events w total i email) = record_calls w email.
Proof.
  unfold record_events. cbn [filter is_network]. rewrite filter_app.
  cbn [filter is_network]. rewrite app_nil_r. apply filter_all.
  unfold record_calls.
  destruct (Streamlit.is_email_format_valid (Streamlit.CStr email));
    [apply verify_network | reflexivity].
Qed.

Lemma network_of_run (w : world) (a : nat -> string) (total : nat)
      (l : list nat) :
  filter is_network (flat_map (fun i => record_events w total i (a i)) l)
  = flat_map (fun i => snd (Script.verify_email_smtp w (a i) 15))
             (filter (fun i => negb (format_invalid (a i))) l).
Proof.
  induction l as [|i l IH]; [reflexivity|].
  cbn [flat_map filter]. rewrite filter_app, network_record_events, IH.
  unfold record_calls, format_invalid, Streamlit.verify_email_smtp.
  now destruct (Streamlit.is_email_format_valid (Streamlit.CStr (a i))).
Qed.

(** A record is marked invalid at the end of the loop exactly when its
    address is format-invalid: a probe never answers with the message of
    the format check. *)
Lemma marked_invalid_fold (w : world) (a : nat -> string)
      (df : Streamlit.DataFrame) (i : nat) :
  i < Streamlit.nrows df ->
  marked_invalid
    (fold_left (fun cur i => record_update w (a i) i cur)
               (seq 0 (Streamlit.nrows df)) (initialised df)) i
  = format_invalid (a i).
Proof.
  intros Hi. destruct (fold_cells w a df i Hi) as (_ & Hr & Hm).
  unfold marked_invalid. rewrite Hr, Hm. unfold format_invalid.
  destruct (Streamlit.is_email_format_valid (Streamlit.CStr (a i))) eqn:Hf.
  - destruct (verify_returns w (a i) 15) as (b & m & Hb).
    rewrite (verdict_valid w _ b m Hf Hb). cbn [fst snd negb].
    destruct b; [reflexivity|]. apply String.eqb_neq.
    now apply (verify_message_not_format w (a i) 15 false).
  - now rewrite (verdict_invalid w _ Hf).
Qed.

(** X22. For every uploaded table whose selected column is present and not
    named like a preset column, and whose columns [username] and [domain]
    are missing or take text, with N records of which M have a
    format-invalid address: the run returns a table of N records in which
    the records marked with [reachable = False] and
    [validation_message = "Invalid email format"] are the format-invalid
    ones, M in number; and the DNS and SMTP calls of the run are the calls
    of the probes of the format-valid records, in the order of the records:
    no such call is made for a format-invalid record. *)
Theorem validate_emails_format_invalid_records :
  forall (w : world) (df : Streamlit.DataFrame) (email_col : string),
    Streamlit.has_column df email_col = true ->
    ~ In email_col preset_columns ->
    parts_writable df = true ->
    exists out : Streamlit.DataFrame,
      fst (Streamlit.validate_emails w email_col df) = Ret out
      /\ Streamlit.nrows out = Streamlit.nrows df
      /\ (forall i, i < Streamlit.nrows df ->
            marked_invalid out i = format_invalid (address df email_col i))
      /\ count_marked_invalid out = count_format_invalid df email_col
      /\ filter is_network (snd (Streamlit.validate_emails w email_col df))
         = flat_map
             (fun i => snd (Script.verify_email_smtp
                              w (address df email_col i) 15))
             (filter (fun i => negb (format_invalid (address df email_col i)))
                     (seq 0 (Streamlit.nrows df))).
Proof.
  intros w df email_col Hhas Hres Hpw.
  rewrite (run_result w email_col df Hhas Hres (or_introl Hpw)).
  cbn [fst snd].
  assert (Hn : Streamlit.nrows
                 (fold_left
                    (fun cur i => record_update w (address df email_col i) i cur)
                    (seq 0 (Streamlit.nrows df)) (initialised df))
               = Streamlit.nrows df).
  { apply fold_update_invariant.
    - intros i cur H. now rewrite record_update_nrows.
    - apply initialised_nrows. }
  eexists. split; [reflexivity|]. split; [exact Hn|]. split; [|split].
  - intros i Hi. now apply marked_invalid_fold.
  - unfold count_marked_invalid, count_format_invalid. rewrite Hn. f_equal.
    apply filter_ext_in. intros j Hj. apply in_seq in Hj.
    apply marked_invalid_fold. lia.
  - apply network_of_run.
Qed.

Lemma validate_emails_format_invalid_records_witness :
  exists out : Streamlit.DataFrame,
    fst (Streamlit.validate_emails accepting_world "email" df_sample) = Ret out
    /\ Streamlit.nrows out = 3
    /\ (forall i, i < 3 ->
          marked_invalid out i = format_invalid (address df_sample "email" i))
    /\ count_marked_invalid out = 2
    /\ filter is_network
         (snd (Streamlit.validate_emails accepting_world "email" df_sample))
       = flat_map
           (fun i => snd (Script.verify_email_smtp
                            accepting_world (address df_sample "email" i) 15))
           (filter (fun i => negb (format_invalid
                                     (address df_sample "email" i)))
                   (seq 0 3)).
Proof.
  apply (validate_emails_format_invalid_records accepting_world df_sample
           "email").
  - reflexivity.
  - simpl. intros [H|[H|[H|[]]]]; discriminate.
  - reflexivity.
Defined.

(** ** The results of the prober *)

(** X19. [verify_email_smtp] never raises, whatever the resolver and the
    mail servers do, and its result is one of six: [False] with the
    "missing @" message, with "No MX records found for domain <d>", with
    "DNS error: <text>", with "Error resolving MX records: <text>" or with
    the inconclusive message, or [True] with "Email exists". *)
Theorem verify_email_smtp_results :
  forall (w : world) (email : string) (timeout : Z),
    fst (Script.verify_email_smtp w email timeout)
    = Ret (false, Script.missing_at_msg)
    \/ (exists d, fst (Script.verify_email_smtp w email timeout)
                  = Ret (false, ("No MX records found for domain " ++ d)%string))
    \/ (exists x, fst (Script.verify_email_smtp w email timeout)
                  = Ret (false, ("DNS error: " ++ x)%string))
    \/ (exists x, fst (Script.verify_email_smtp w email timeout)
                  = Ret (false, ("Error resolving MX records: " ++ x)%string))
    \/ fst (Script.verify_email_smtp w email timeout)
       = Ret (false, Script.inconclusive_msg)
    \/ fst (Script.verify_email_smtp w email timeout)
       = Ret (true, "Email exists").
Proof.
  intros w email timeout.
  destruct (Nat.eq_dec (List.length (split "@" email)) 2) as [Hl|Hl];
    [|left; now rewrite (verify_unparsed w email timeout Hl)].
  destruct (split_two_parts email Hl) as (u & d & Hs).
  destruct (dns_resolve_mx w d) as [[|x xs]|e] eqn:Hd.
  - right; left. exists d.
    now rewrite (verify_no_records w email timeout u d Hs Hd).
  - rewrite (verify_resolved w email timeout u d (x :: xs) Hs Hd)
      by discriminate.
    cbn [fst].
    destruct (probe_all_result w email timeout (x :: xs)) as [E|E];
      rewrite E; auto 7.
  - rewrite (verify_resolver_raises w email timeout u d e Hs Hd). cbn [fst].
    destruct (exn_cls e); eauto 7.
Qed.
